(** * Voice-AI-Prompt-Optimizer: the optimisation loop of [optimize.py]

    A shallow embedding of [VoiceAssistantOptimizer] (optimize.py, lines
    381-645) and the properties of its test-suite builder, evaluator,
    scoring and stopping rules; then of [ClaudeClient] (lines 172-287) and
    [Config.validate] (lines 69-88).

    Conventions of the embedding.
    - A Python [str] is a list of Unicode code points ([list N]).
    - A Python [float] is a binary64 number: Rocq's primitive [float], whose
      operations are the IEEE 754 ones Python uses.
    - The remote services (the chat backends and the research service) and
      [json.loads] are external: they are the fields of an [Env].  A reply
      may depend on the request and on how many remote calls were made
      before it, so two identical requests may be answered differently.
    - The optimizer object ([self.metrics_history], [self.best_prompt],
      [self.best_score]) is a mutable store; a computation is a function of
      the store that returns a value or raises, and the store survives a
      raise, as the attributes of a Python object do.
    - [print] calls are left out (the two messages printed before a [break]
      are kept as the reason attached to the break). *)

From Stdlib Require Import List ZArith NArith Bool Lia String Ascii.
From Stdlib Require Import Floats.
Import ListNotations.

Local Open Scope Z_scope.
#[local] Set Warnings "-inexact-float".

(** ** Python strings *)

Module Str.

Definition char := N.
Definition str := list char.

(** A literal of the source, code point by code point. *)
Definition lit (s : string) : str :=
  map N_of_ascii (list_ascii_of_string s).

(** [str.isspace] on one code point: the white-space table of CPython
    ([_PyUnicode_IsWhitespace]). *)
Definition isspace (c : char) : bool :=
  (((9 <=? c) && (c <=? 13)) || ((28 <=? c) && (c <=? 32))
   || (c =? 133) || (c =? 160) || (c =? 5760)
   || ((8192 <=? c) && (c <=? 8202))
   || (c =? 8232) || (c =? 8233) || (c =? 8239) || (c =? 8287)
   || (c =? 12288))%N.

Fixpoint lstrip (s : str) : str :=
  match s with
  | [] => []
  | c :: r => if isspace c then lstrip r else s
  end.

Definition rstrip (s : str) : str := rev (lstrip (rev s)).

(** [s.strip()] *)
Definition strip (s : str) : str := rstrip (lstrip s).

(** [s.split(sep)] for a one-character separator: never an empty list. *)
Fixpoint split (sep : char) (s : str) : list str :=
  match s with
  | [] => [[]]
  | c :: r =>
      if (c =? sep)%N then [] :: split sep r
      else match split sep r with
           | [] => [[c]]
           | h :: t => (c :: h) :: t
           end
  end.

(** Truth value of a string: non-empty. *)
Definition truthy (s : str) : bool :=
  match s with [] => false | _ :: _ => true end.

Fixpoint eqb (a b : str) : bool :=
  match a, b with
  | [], [] => true
  | x :: a', y :: b' => (x =? y)%N && eqb a' b'
  | _, _ => false
  end.

Definition newline : char := 10%N.

End Str.

Import Str.

(** ** Python lists *)

(** [l[:n]]: the first [n] items, and for a negative [n] all but the last
    [-n] of them. *)
Definition slice_to {A : Type} (n : Z) (l : list A) : list A :=
  if 0 <=? n then firstn (Z.to_nat n) l
  else firstn (List.length l - Z.to_nat (- n)) l.

(** [range(lo, hi)] *)
Definition py_range (lo hi : Z) : list Z :=
  map (fun k => lo + Z.of_nat k) (seq 0 (Z.to_nat (hi - lo))).

(** ** Python numbers *)

(** [float(n)] for a count [n]; exact below 2^53. *)
Definition float_of_nat (n : nat) : float :=
  PrimFloat.of_uint63 (Uint63.of_Z (Z.of_nat n)).

(** [x >= y] and [x > y] on floats, false as soon as one side is NaN. *)
Definition fge (x y : float) : bool := PrimFloat.leb y x.
Definition fgt (x y : float) : bool := PrimFloat.ltb y x.
Definition flt (x y : float) : bool := PrimFloat.ltb x y.

(** Two floats that denote the same value: the same float (NaN included),
    or equal for Python's [==] (which identifies the two zeros). *)
Definition same_value (x y : float) : Prop :=
  x = y \/ PrimFloat.eqb x y = true.

(** ** Data model *)

(** [Config] (lines 39-67): the settings read from the environment. *)
Inductive Model := CLAUDE | OPENAI.

Record Config := {
  PRIMARY_MODEL : Model;
  MAX_ITERATIONS : Z;
  TARGET_ACCURACY : float;
  MIN_IMPROVEMENT : float;
  VARIATIONS_PER_QUERY : Z;
  FUNCTION_WEIGHT : float;
  PARAMETER_WEIGHT : float;
  USE_PERPLEXITY : bool;
  (** the seed data of lines 94-166 *)
  TEST_QUERIES : list str;
  INITIAL_PROMPT : str
}.

(** A parsed JSON value, what [json.loads] returns. *)
#[local] Set Warnings "-register-all".
Inductive Json :=
| JNull
| JBool (b : bool)
| JNumber (x : float)
| JString (s : str)
| JArray (items : list Json)
| JObject (members : list (str * Json)).

(** One entry of the test suite: [{"original": ..., "variation": ...}]. *)
Record TestCase := { original : str; variation : str }.

(** What [call_voice_assistant] returns. *)
Record CallResult := {
  cr_query : str;
  cr_function : option str;
  cr_params : Json;
  cr_success : bool
}.

(** One entry of [results] in [run_iteration]. *)
Record Evaluation := {
  query : str;
  expected : str;
  actual : option str;
  correct : bool
}.

(** The [metrics] dictionary of [run_iteration]. *)
Record Metrics := {
  iteration : Z;
  overall : float;
  function_acc : float;
  n_correct : nat;
  total : nat;
  evaluations : list Evaluation
}.

(** ** The remote services *)

(** The message of a response: free text, or a function call with its
    arguments as JSON text. *)
Inductive Message :=
| Content (text : str)
| FunctionCall (name : str) (arguments : str).

(** What a request is made of.  The text of a request is built from these
    values only, so a service that answers from the text answers from
    them. *)
Inductive Payload :=
| AskVariations (q : str) (num_variations : Z)
| AskAssistant (system_prompt : str) (q : str)
| AskExpected (q : str)
| AskRewrite (current_prompt : str) (m : Metrics) (errors : list Evaluation)
             (research_insights : str).

Record Request := {
  payload : Payload;
  temperature : float;
  max_tokens : Z
}.

(** The collaborators of the optimizer.  Each client wrapper catches every
    exception of its backend and returns [None] then; the first argument is
    the number of remote calls made before this one.  The replies are
    those of the Claude client, which builds them inside its [try]: a
    text, or a function call.  The OpenAI client hands on the raw response
    of its library, which the callers read outside any [try]; a response
    of that library without a text where one is read is outside this
    model. *)
Record Env := {
  (** [primary_client.chat_completion] without functions: the text *)
  chat_completion : nat -> Request -> option str;
  (** the completion with [FUNCTIONS] offered ([chat_completion_with_tools]
      of the Claude client, [chat_completion(functions=...)] of the OpenAI
      one) *)
  chat_completion_with_tools : nat -> Request -> option Message;
  (** [PerplexityClient.research] on the two figures its query shows *)
  research : nat -> float -> float -> option str;
  (** [json.loads]; [None] when it raises *)
  json_loads : str -> option Json
}.

(** ** The store and the computations over it *)

(** The attributes of the optimizer object set by [__init__], and the
    count of remote calls made so far. *)
Record Store := {
  metrics_history : list Metrics;
  best_prompt : str;
  best_score : float;
  calls : nat
}.

Inductive Exception :=
| ZeroDivisionError
| IndexError
| JSONDecodeError.

Inductive Result (A : Type) :=
| Ok (a : A)
| Raise (e : Exception).
Arguments Ok {A} a.
Arguments Raise {A} e.

Definition M (A : Type) : Type := Store -> Result A * Store.

Definition ret {A} (a : A) : M A := fun s => (Ok a, s).

Definition raise {A} (e : Exception) : M A := fun s => (Raise e, s).

Definition bind {A B} (c : M A) (k : A -> M B) : M B :=
  fun s =>
    match c s with
    | (Ok a, s') => k a s'
    | (Raise e, s') => (Raise e, s')
    end.

Notation "x <- c ;; k" := (bind c (fun x => k))
  (at level 61, c at next level, right associativity).
Notation "c ;;; k" := (bind c (fun _ => k))
  (at level 61, right associativity).

(** One remote call: the reply of the service at the current count. *)
Definition remote {A} (service : nat -> A) : M A :=
  fun s =>
    (Ok (service (calls s)),
     {| metrics_history := metrics_history s;
        best_prompt := best_prompt s;
        best_score := best_score s;
        calls := S (calls s) |}).

Definition get {A} (field : Store -> A) : M A := fun s => (Ok (field s), s).

Definition append_metrics (m : Metrics) : M unit :=
  fun s =>
    (Ok tt,
     {| metrics_history := metrics_history s ++ [m];
        best_prompt := best_prompt s;
        best_score := best_score s;
        calls := calls s |}).

Definition set_best (score : float) (prompt : str) : M unit :=
  fun s =>
    (Ok tt,
     {| metrics_history := metrics_history s;
        best_prompt := prompt;
        best_score := score;
        calls := calls s |}).

(** The store [__init__] leaves (lines 392-394). *)
Definition init_store (cfg : Config) : Store :=
  {| metrics_history := [];
     best_prompt := INITIAL_PROMPT cfg;
     best_score := 0%float;
     calls := 0%nat |}.

(** ** The optimizer *)

Section Optimizer.

Variable env : Env.
Variable cfg : Config.

(** The requests of the four callers: the values their messages are built
    from, with the temperature and the length limit each caller passes. *)
Definition variations_messages (q : str) (num_variations : Z) : Request :=
  {| payload := AskVariations q num_variations;
     temperature := 0.8%float;
     max_tokens := 200 |}.

Definition assistant_messages (q system_prompt : str) : Request :=
  {| payload := AskAssistant system_prompt q;
     temperature := 0.7%float;
     max_tokens := 500 |}.

Definition expected_messages (q : str) : Request :=
  {| payload := AskExpected q;
     temperature := 0%float;
     max_tokens := 20 |}.

(** The metaprompt shows the prompt, the figures of the metrics, up to five
    failed evaluations and the research notes (lines 501-533). *)
Definition rewrite_messages (current_prompt : str) (metrics : Metrics)
                            (research_insights : str) : Request :=
  let errors :=
    firstn 5 (filter (fun e => negb (correct e)) (evaluations metrics)) in
  {| payload := AskRewrite current_prompt metrics errors research_insights;
     temperature := 0.7%float;
     max_tokens := match PRIMARY_MODEL cfg with
                   | CLAUDE => 1500
                   | OPENAI => 1000
                   end |}.

(** The lines of a reply that are kept as variations:
    [[v.strip() for v in generated if v.strip()]]. *)
Definition kept_lines (content : str) : list str :=
  let generated := split newline (strip content) in
  map strip (filter (fun v => truthy (strip v)) generated).

(** [generate_query_variations] (lines 396-420).  Both branches of the
    test on [PRIMARY_MODEL] make the same call. *)
Definition generate_query_variations (q : str) (num_variations : Z)
  : M (list str) :=
  let variations := [q] in
  response <- remote (fun n =>
    chat_completion env n (variations_messages q num_variations)) ;;
  match response with
  | Some content =>
      ret (variations ++ slice_to (num_variations - 1) (kept_lines content))
  | None => ret variations
  end.

(** [call_voice_assistant] (lines 422-459).  A response with a function
    call gives its name and its parsed arguments; [json.loads] may
    raise. *)
Definition call_voice_assistant (q system_prompt : str) : M CallResult :=
  response <- remote (fun n =>
    chat_completion_with_tools env n (assistant_messages q system_prompt)) ;;
  match response with
  | None =>
      ret {| cr_query := q; cr_function := None;
             cr_params := JObject []; cr_success := false |}
  | Some (FunctionCall name arguments) =>
      match json_loads env arguments with
      | Some params =>
          ret {| cr_query := q; cr_function := Some name;
                 cr_params := params; cr_success := true |}
      | None => raise JSONDecodeError
      end
  | Some (Content _) =>
      ret {| cr_query := q; cr_function := None;
             cr_params := JObject []; cr_success := true |}
  end.

(** [get_expected_function] (lines 461-477) *)
Definition get_expected_function (q : str) : M str :=
  response <- remote (fun n => chat_completion env n (expected_messages q)) ;;
  match response with
  | Some content => ret (strip content)
  | None => ret (lit "unknown")
  end.

(** [research_optimization_strategies] (lines 479-497); [self.perplexity]
    is set exactly when [USE_PERPLEXITY] is. *)
Definition research_optimization_strategies (current_metrics : Metrics)
  : M str :=
  if negb (USE_PERPLEXITY cfg) then ret []
  else
    r <- remote (fun n =>
      research env n (function_acc current_metrics)
                     (overall current_metrics)) ;;
    match r with
    | Some text => if truthy text then ret text else ret []
    | None => ret []
    end.

(** [optimize_prompt] (lines 499-543) *)
Definition optimize_prompt (current_prompt : str) (metrics : Metrics)
                           (research_insights : str) : M str :=
  response <- remote (fun n =>
    chat_completion env n
      (rewrite_messages current_prompt metrics research_insights)) ;;
  match response with
  | Some content => ret (strip content)
  | None => ret current_prompt
  end.

(** [a == b] for [a] a string or [None] and [b] a string. *)
Definition py_eq (a : option str) (b : str) : bool :=
  match a with
  | Some x => Str.eqb x b
  | None => false
  end.

(** The body of the loop over the test suite (lines 554-562). *)
Definition evaluate (prompt : str) (test : TestCase) : M Evaluation :=
  result <- call_voice_assistant (variation test) prompt ;;
  expected <- get_expected_function (cr_query result) ;;
  ret {| query := cr_query result;
         expected := expected;
         actual := cr_function result;
         correct := py_eq (cr_function result) expected |}.

Fixpoint evaluate_all (prompt : str) (test_suite : list TestCase)
  : M (list Evaluation) :=
  match test_suite with
  | [] => ret []
  | test :: rest =>
      r <- evaluate prompt test ;;
      rs <- evaluate_all prompt rest ;;
      ret (r :: rs)
  end.

(** [correct / total] on two counts: the quotient of the two floats (the
    counts of a suite are exact as floats), or the error of a division
    by zero. *)
Definition true_div (a b : nat) : M float :=
  match b with
  | O => raise ZeroDivisionError
  | _ => ret (float_of_nat a / float_of_nat b)%float
  end.

(** [sum(1 for r in results if r['correct'])] *)
Definition count_correct (results : list Evaluation) : nat :=
  List.length (filter correct results).

(** [run_iteration] (lines 545-585).  With no result the source takes the
    integer [0] for [function_acc], which the product with the weight
    turns into the float [0.0]. *)
Definition run_iteration (prompt : str) (test_suite : list TestCase)
                         (it : Z) : M Metrics :=
  results <- evaluate_all prompt test_suite ;;
  let total := List.length results in
  let correct := count_correct results in
  function_acc <- (if (0 <? total)%nat then true_div correct total
                   else ret 0%float) ;;
  let overall :=
    (function_acc * FUNCTION_WEIGHT cfg + 0.8 * PARAMETER_WEIGHT cfg)%float in
  ret {| iteration := it;
         overall := overall;
         function_acc := function_acc;
         n_correct := correct;
         total := total;
         evaluations := results |}.

(** The test-suite loop of [optimize] (lines 601-608). *)
Fixpoint generate_test_suite (queries : list str) : M (list TestCase) :=
  match queries with
  | [] => ret []
  | q :: rest =>
      variations <- generate_query_variations q (VARIATIONS_PER_QUERY cfg) ;;
      suite <- generate_test_suite rest ;;
      ret (map (fun v => {| original := q; variation := v |}) variations
           ++ suite)
  end.

(** [l[-k]] for [k >= 1] *)
Definition item_from_end {A} (l : list A) (k : nat) : M A :=
  match nth_error (rev l) (Nat.pred k) with
  | Some x => ret x
  | None => raise IndexError
  end.

(** How the loop of [optimize] ends: one of its two [break]s, named after
    the message printed before it, or the end of the range. *)
Inductive Exit := TargetReached | Plateau | BudgetExhausted.

(** What one pass over the loop body decides: leave the loop, or go on
    with a value for [current_prompt]. *)
Inductive Control :=
| Break (why : Exit)
| Next (current_prompt : str).

(** "Track best" (lines 618-622) *)
Definition track_best (metrics : Metrics) (current_prompt : str) : M unit :=
  best <- get best_score ;;
  if fgt (overall metrics) best
  then set_best (overall metrics) current_prompt
  else ret tt.

(** "Check stopping criteria" (lines 624-633): the [break] taken, if any.
    The metrics of this iteration are already the last of the history. *)
Definition check_stopping (metrics : Metrics) (it : Z) : M (option Exit) :=
  if fge (overall metrics) (TARGET_ACCURACY cfg) then ret (Some TargetReached)
  else if 1 <? it then
    history <- get metrics_history ;;
    previous <- item_from_end history 2 ;;
    let improvement := (overall metrics - overall previous)%float in
    if flt improvement (MIN_IMPROVEMENT cfg) then ret (Some Plateau)
    else ret None
  else ret None.

(** "Generate next prompt" (lines 635-643): the value of [current_prompt]
    after the pass. *)
Definition next_prompt (metrics : Metrics) (it : Z) (current_prompt : str)
  : M str :=
  if it <? MAX_ITERATIONS cfg then
    research_insights <-
      (if USE_PERPLEXITY cfg && (it =? 1)
       then research_optimization_strategies metrics
       else ret []) ;;
    optimize_prompt current_prompt metrics research_insights
  else ret current_prompt.

(** The body of the loop of [optimize] (lines 614-643). *)
Definition loop_body (test_suite : list TestCase) (it : Z)
                     (current_prompt : str) : M Control :=
  metrics <- run_iteration current_prompt test_suite it ;;
  append_metrics metrics ;;;
  track_best metrics current_prompt ;;;
  stop <- check_stopping metrics it ;;
  match stop with
  | Some why => ret (Break why)
  | None =>
      next <- next_prompt metrics it current_prompt ;;
      ret (Next next)
  end.

(** [for iteration in its: ...] with its [break]s. *)
Fixpoint for_iterations (test_suite : list TestCase) (its : list Z)
                        (current_prompt : str) : M Exit :=
  match its with
  | [] => ret BudgetExhausted
  | it :: rest =>
      c <- loop_body test_suite it current_prompt ;;
      match c with
      | Break why => ret why
      | Next next => for_iterations test_suite rest next
      end
  end.

(** [optimize] up to the end of its loop (lines 600-643). *)
Definition optimization_loop : M Exit :=
  test_suite <- generate_test_suite (TEST_QUERIES cfg) ;;
  for_iterations test_suite (py_range 1 (MAX_ITERATIONS cfg + 1))
                 (INITIAL_PROMPT cfg).

(** [optimize] (lines 587-645) *)
Definition optimize : M (str * float * list Metrics) :=
  optimization_loop ;;;
  p <- get best_prompt ;;
  b <- get best_score ;;
  h <- get metrics_history ;;
  ret (p, b, h).

End Optimizer.


(** * The vocabulary of the properties *)

(** ** Stores *)

(** The attributes of the optimizer object are the same in two stores. *)
Definition same_self (s s' : Store) : Prop :=
  metrics_history s' = metrics_history s
  /\ best_prompt s' = best_prompt s
  /\ best_score s' = best_score s.

(** A computation that leaves the attributes alone, whatever it returns. *)
Definition quiet {A} (c : M A) : Prop :=
  forall s, same_self s (snd (c s)).

(** The store after one more remote call. *)
Definition tick (s : Store) : Store :=
  {| metrics_history := metrics_history s;
     best_prompt := best_prompt s;
     best_score := best_score s;
     calls := S (calls s) |}.

(** A computation that raises nothing but the error of [json.loads], and
    that only if [json.loads] fails on some text. *)
Definition safe (env : Env) {A} (c : M A) : Prop :=
  forall s,
    match fst (c s) with
    | Ok _ => True
    | Raise e => e = JSONDecodeError /\ exists a, json_loads env a = None
    end.

(** A computation that makes at most [k] remote calls. *)
Definition costs {A} (k : nat) (c : M A) : Prop :=
  forall s, (calls (snd (c s)) <= calls s + k)%nat.

(** ** Scores *)

(** The overall score as a function of the accuracy and the two weights. *)
Definition overall_score (function_acc w_f w_p : float) : float :=
  (function_acc * w_f + 0.8 * w_p)%float.

(** The fraction of correct evaluations, as [run_iteration] computes it. *)
Definition fraction_correct (results : list Evaluation) : float :=
  if (0 <? List.length results)%nat
  then (float_of_nat (count_correct results)
        / float_of_nat (List.length results))%float
  else 0%float.

(** The figures of a [Metrics] are those of its evaluations. *)
Definition well_scored (cfg : Config) (m : Metrics) : Prop :=
  overall m
    = overall_score (function_acc m) (FUNCTION_WEIGHT cfg)
                    (PARAMETER_WEIGHT cfg)
  /\ function_acc m = fraction_correct (evaluations m)
  /\ n_correct m = count_correct (evaluations m)
  /\ total m = List.length (evaluations m).

(** The verdict of an evaluation is the comparison of its two sides. *)
Definition well_judged (e : Evaluation) : Prop :=
  correct e = py_eq (actual e) (expected e).

(** A float that compares with itself: any float but NaN. *)
Definition ordered (x : float) : Prop := PrimFloat.leb x x = true.

(** ** The loop *)

(** The tracked best score after the iterations of [h], from [b]. *)
Definition best_after (b : float) (h : list Metrics) : float :=
  fold_left (fun b m => if fgt (overall m) b then overall m else b) h b.

(** What one pass does to the store: [m] is appended, and the best score
    and prompt change only for a strictly greater score, to the score of
    [m] and the prompt [p] the pass evaluated. *)
Definition tracked (p : str) (m : Metrics) (s s' : Store) : Prop :=
  metrics_history s' = metrics_history s ++ [m]
  /\ (if fgt (overall m) (best_score s)
      then best_score s' = overall m /\ best_prompt s' = p
      else best_score s' = best_score s /\ best_prompt s' = best_prompt s).

(** The store after "Track best". *)
Definition after_tracking (p : str) (m : Metrics) (s : Store) : Store :=
  {| metrics_history := metrics_history s ++ [m];
     best_prompt := if fgt (overall m) (best_score s) then p
                    else best_prompt s;
     best_score := if fgt (overall m) (best_score s) then overall m
                   else best_score s;
     calls := calls s |}.

(** The rest of a pass, from "Check stopping criteria" on. *)
Definition decide (env : Env) (cfg : Config) (m : Metrics) (it : Z) (p : str)
  : M Control :=
  stop <- check_stopping cfg m it ;;
  match stop with
  | Some why => ret (Break why)
  | None => next <- next_prompt env cfg m it p ;; ret (Next next)
  end.

(** [m] is what some iteration over [suite] returned. *)
Definition produced (env : Env) (cfg : Config) (suite : list TestCase)
                    (m : Metrics) : Prop :=
  exists p it s0 s1, run_iteration env cfg p suite it s0 = (Ok m, s1).

(** ** Test suites *)

(** The entry of a seed, and the entry of one of its variations. *)
Definition seed_case (q : str) : TestCase :=
  {| original := q; variation := q |}.

Definition variation_case (q v : str) : TestCase :=
  {| original := q; variation := v |}.

(** The suite of some seeds, each with the variations kept for it: the
    seed's own entry, then its variations, then the next seed. *)
Definition suite_of (seeds : list (str * list str)) : list TestCase :=
  flat_map (fun sv => seed_case (fst sv) :: map (variation_case (fst sv)) (snd sv))
           seeds.

(** The variations kept for the seed [q] when the call numbered [n] asks
    for them. *)
Definition extras_for (env : Env) (k : Z) (q : str) (n : nat) : list str :=
  match chat_completion env n (variations_messages q k) with
  | Some content => slice_to (k - 1) (kept_lines content)
  | None => []
  end.

(** The seeds with their variations, the first seed asking at call [n]. *)
Fixpoint seeds_with_extras (env : Env) (k : Z) (n : nat) (queries : list str)
  : list (str * list str) :=
  match queries with
  | [] => []
  | q :: rest =>
      (q, extras_for env k q n) :: seeds_with_extras env k (S n) rest
  end.

(** The store after [k] more remote calls. *)
Definition ticks (k : nat) (s : Store) : Store :=
  {| metrics_history := metrics_history s;
     best_prompt := best_prompt s;
     best_score := best_score s;
     calls := k + calls s |}.

(** ** Test doubles *)

Definition answer_question : str := lit "answer_question".

(** A chat backend that answers every kind of request. *)
Definition scripted_chat (n : nat) (r : Request) : option str :=
  match payload r with
  | AskVariations _ _ => Some (lit " first rewording
second rewording
third rewording ")
  | AskAssistant _ _ => None
  | AskExpected _ => Some (lit " answer_question ")
  | AskRewrite p _ _ _ => Some (p ++ lit " Be precise. ")
  end.

(** An assistant that calls [answer_question] for the first 100 tests of
    the calls 200-599, the first 140 of the calls 601-1000 and the first
    141 of the later ones, and answers in plain text otherwise: over a
    suite of 200 tests built by 200 calls, with one rewrite between two
    iterations, that is 100, 140 and 141 right answers. *)
Definition scripted_tools (n : nat) (_ : Request) : option Message :=
  let call := Some (FunctionCall answer_question (lit "{}")) in
  let text := Some (Content (lit "Sure.")) in
  if (n <? 601)%nat then (if ((n - 200) / 2 <? 100)%nat then call else text)
  else if (n <? 1002)%nat
       then (if ((n - 601) / 2 <? 140)%nat then call else text)
       else (if ((n - 1002) / 2 <? 141)%nat then call else text).

Definition scripted_env : Env :=
  {| chat_completion := scripted_chat;
     chat_completion_with_tools := scripted_tools;
     research := fun _ _ _ => None;
     json_loads := fun _ => Some (JObject []) |}.

(** 200 seeds, no variation, and the accuracy alone as the score. *)
Definition plateau_cfg : Config :=
  {| PRIMARY_MODEL := CLAUDE;
     MAX_ITERATIONS := 5;
     TARGET_ACCURACY := 0.9;
     MIN_IMPROVEMENT := 0.02;
     VARIATIONS_PER_QUERY := 1;
     FUNCTION_WEIGHT := 1;
     PARAMETER_WEIGHT := 0;
     USE_PERPLEXITY := false;
     TEST_QUERIES := repeat (lit "How do I reset my password?") 200;
     INITIAL_PROMPT := lit "You are a voice assistant." |}.

(** Two seeds, three entries asked for each, weights that sum to 1.4. *)
Definition small_cfg : Config :=
  {| PRIMARY_MODEL := OPENAI;
     MAX_ITERATIONS := 2;
     TARGET_ACCURACY := 0.9;
     MIN_IMPROVEMENT := 0.02;
     VARIATIONS_PER_QUERY := 3;
     FUNCTION_WEIGHT := 0.7;
     PARAMETER_WEIGHT := 0.7;
     USE_PERPLEXITY := true;
     TEST_QUERIES := [lit "What time is it?"; lit "Tell me a joke"];
     INITIAL_PROMPT := lit "You are a voice assistant." |}.

(** Services that are down: every call fails. *)
Definition silent_env : Env :=
  {| chat_completion := fun _ _ => None;
     chat_completion_with_tools := fun _ _ => None;
     research := fun _ _ _ => None;
     json_loads := fun _ => None |}.

(** An assistant that is right in its first calls only: over a suite of
    two tests built by two calls, the first iteration is all right and the
    second all wrong. *)
Definition fading_tools (n : nat) (_ : Request) : option Message :=
  if (n <? 6)%nat then Some (FunctionCall answer_question (lit "{}"))
  else Some (Content (lit "Sure.")).

Definition fading_env : Env :=
  {| chat_completion := scripted_chat;
     chat_completion_with_tools := fading_tools;
     research := fun _ _ _ => None;
     json_loads := fun _ => Some (JObject []) |}.

Definition fading_cfg : Config :=
  {| PRIMARY_MODEL := CLAUDE;
     MAX_ITERATIONS := 5;
     TARGET_ACCURACY := 0.9;
     MIN_IMPROVEMENT := 0.02;
     VARIATIONS_PER_QUERY := 1;
     FUNCTION_WEIGHT := 0.5;
     PARAMETER_WEIGHT := 0.25;
     USE_PERPLEXITY := false;
     TEST_QUERIES := [lit "What time is it?"; lit "Tell me a joke"];
     INITIAL_PROMPT := lit "You are a voice assistant." |}.

Definition fading_suite : list TestCase :=
  map seed_case (TEST_QUERIES fading_cfg).

(** The plateau run just before its third iteration: the suite, the prompt
    after two rewrites, and the store after two passes. *)
Definition plateau_suite : list TestCase :=
  map seed_case (TEST_QUERIES plateau_cfg).

Definition plateau_third_prompt : str :=
  lit "You are a voice assistant. Be precise. Be precise.".

Definition plateau_store_after_two : Store :=
  snd (for_iterations scripted_env plateau_cfg plateau_suite [1; 2]
         (INITIAL_PROMPT plateau_cfg) (ticks 200 (init_store plateau_cfg))).

Definition password_case : TestCase :=
  seed_case (lit "How do I reset my password?").

(** * The client wrapper and the configuration check *)

(** ** [ClaudeClient] (lines 172-287) *)

(** One turn of a conversation: [{"role": ..., "content": ...}]. *)
Record ChatMessage := { msg_role : str; msg_content : str }.

(** One entry of [FUNCTIONS], and the same entry in the tool format. *)
Record FunctionSpec := {
  fn_name : str;
  fn_description : str;
  fn_parameters : Json
}.

Record ClaudeTool := {
  tool_name : str;
  tool_description : str;
  input_schema : Json
}.

(** The arguments of [client.messages.create]. *)
Record ClaudeRequest := {
  cl_model : str;
  cl_max_tokens : Z;
  cl_temperature : float;
  cl_system : str;
  cl_messages : list ChatMessage;
  cl_tools : option (list ClaudeTool)
}.

(** A block of [response.content]: a text block has a [text], a block of
    type "tool_use" a [name] and an [input], any other block neither. *)
Inductive ContentBlock :=
| TextBlock (text : str)
| ToolUseBlock (name : str) (input : Json)
| OtherBlock.

Record ClaudeResponse := {
  stop_reason : str;
  response_content : list ContentBlock
}.

(** The client object: [self.client.messages.create], which answers or
    raises ([None]) at each call, and [self.model]. *)
Record ClaudeClient := {
  messages_create : nat -> ClaudeRequest -> option ClaudeResponse;
  claude_model : str
}.

(** The loop over [messages] of both methods (lines 192-199, 230-237): a
    system turn replaces the system prompt, any other turn is appended. *)
Definition split_system (system : option str) (messages : list ChatMessage)
  : option str * list ChatMessage :=
  fold_left
    (fun st msg =>
       if Str.eqb (msg_role msg) (lit "system")
       then (Some (msg_content msg), snd st)
       else (fst st, snd st ++ [{| msg_role := msg_role msg;
                                   msg_content := msg_content msg |}]))
    messages (system, []).

(** The request both methods send: the model of the client, the system
    prompt and the messages the loop left, and the tools if any. *)
Definition claude_request (c : ClaudeClient) (system : str)
    (messages : list ChatMessage) (tools : option (list ClaudeTool))
    (temperature : float) (max_tokens : Z) : ClaudeRequest :=
  {| cl_model := claude_model c;
     cl_max_tokens := max_tokens;
     cl_temperature := temperature;
     cl_system := system;
     cl_messages := messages;
     cl_tools := tools |}.

(** [system_prompt if system_prompt else ""] *)
Definition or_empty (system_prompt : option str) : str :=
  match system_prompt with
  | Some text => text
  | None => []
  end.

(** [ClaudeClient.chat_completion] (lines 184-220): the text of the first
    block of the response; [None] when anything raises, that is when the
    call does, when the response has no block, or when its first block has
    no text. *)
Definition claude_chat_completion (c : ClaudeClient) (n : nat)
    (messages : list ChatMessage) (temperature : float) (max_tokens : Z)
    (system : option str) : option str :=
  let st := split_system system messages in
  match messages_create c n
          (claude_request c (or_empty (fst st)) (snd st) None
                          temperature max_tokens) with
  | Some response =>
      match response_content response with
      | TextBlock text :: _ => Some text
      | _ => None
      end
  | None => None
  end.

(** The tool format of a function (lines 240-246). *)
Definition claude_tool (func : FunctionSpec) : ClaudeTool :=
  {| tool_name := fn_name func;
     tool_description := fn_description func;
     input_schema := fn_parameters func |}.

Definition is_tool_use (b : ContentBlock) : bool :=
  match b with ToolUseBlock _ _ => true | _ => false end.

(** [next((block.text for block in content if hasattr(block, 'text')), "")] *)
Fixpoint first_text (blocks : list ContentBlock) : str :=
  match blocks with
  | [] => []
  | TextBlock text :: _ => text
  | _ :: rest => first_text rest
  end.

(** [ClaudeClient.chat_completion_with_tools] (lines 222-287);
    [json_dumps] is [json.dumps] on the input of a tool call. *)
Definition claude_chat_completion_with_tools (c : ClaudeClient)
    (json_dumps : Json -> str) (n : nat) (messages : list ChatMessage)
    (tools : list FunctionSpec) (temperature : float) (max_tokens : Z)
  : option Message :=
  let st := split_system (Some []) messages in
  match messages_create c n
          (claude_request c (or_empty (fst st)) (snd st)
                          (Some (map claude_tool tools))
                          temperature max_tokens) with
  | Some response =>
      let tool_use :=
        if Str.eqb (stop_reason response) (lit "tool_use")
        then find is_tool_use (response_content response)
        else None in
      match tool_use with
      | Some (ToolUseBlock name input) =>
          Some (FunctionCall name (json_dumps input))
      | _ => Some (Content (first_text (response_content response)))
      end
  | None => None
  end.

(** The services of an optimizer whose assistant calls go through the
    Claude client, whatever messages [render] builds for a request. *)
Definition claude_assistant_env (c : ClaudeClient) (json_dumps : Json -> str)
    (render : Request -> list ChatMessage) (tools : list FunctionSpec)
    (env : Env) : Env :=
  {| chat_completion := chat_completion env;
     chat_completion_with_tools := fun n r =>
       claude_chat_completion_with_tools c json_dumps n (render r) tools
         (temperature r) (max_tokens r);
     research := research env;
     json_loads := json_loads env |}.

(** ** [Config.validate] (lines 69-88) *)

(** The class attributes [validate] reads and writes; a key is absent
    ([None]) or a string. *)
Record Settings := {
  ANTHROPIC_API_KEY : option str;
  OPENAI_API_KEY : option str;
  PERPLEXITY_API_KEY : option str;
  primary_model : str;
  use_perplexity : bool
}.

(** Truth value of a key: present and not empty. *)
Definition key_set (k : option str) : bool :=
  match k with
  | Some text => truthy text
  | None => false
  end.

(** How [validate] ends: [sys.exit(1)], or a return with the attributes as
    it leaves them. *)
Inductive Validation :=
| SystemExit (code : Z)
| Validated (c : Settings).

Definition validate (c : Settings) : Validation :=
  let checked :=
    if Str.eqb (primary_model c) (lit "CLAUDE") then
      key_set (ANTHROPIC_API_KEY c)
    else if Str.eqb (primary_model c) (lit "OPENAI") then
      key_set (OPENAI_API_KEY c)
    else false in
  if negb checked then SystemExit 1
  else if use_perplexity c && negb (key_set (PERPLEXITY_API_KEY c)) then
    Validated {| ANTHROPIC_API_KEY := ANTHROPIC_API_KEY c;
                 OPENAI_API_KEY := OPENAI_API_KEY c;
                 PERPLEXITY_API_KEY := PERPLEXITY_API_KEY c;
                 primary_model := primary_model c;
                 use_perplexity := false |}
  else Validated c.

(** ** More vocabulary *)

Definition is_system (m : ChatMessage) : bool :=
  Str.eqb (msg_role m) (lit "system").

Definition system_turn (text : str) : ChatMessage :=
  {| msg_role := lit "system"; msg_content := text |}.

Definition user_turn (text : str) : ChatMessage :=
  {| msg_role := lit "user"; msg_content := text |}.

(** The messages [call_voice_assistant] builds (lines 424-427). *)
Definition assistant_turns (r : Request) : list ChatMessage :=
  match payload r with
  | AskAssistant system_prompt q => [system_turn system_prompt; user_turn q]
  | _ => []
  end.

(** The same services with another research service. *)
Definition with_research (env : Env)
    (r : nat -> float -> float -> option str) : Env :=
  {| chat_completion := chat_completion env;
     chat_completion_with_tools := chat_completion_with_tools env;
     research := r;
     json_loads := json_loads env |}.

(** Every function call the assistant backend returns carries arguments
    that [json.loads] accepts. *)
Definition parsable_calls (env : Env) : Prop :=
  forall n r name arguments,
    chat_completion_with_tools env n r = Some (FunctionCall name arguments) ->
    json_loads env arguments <> None.

(** A prompt the run can hold: the initial one, or a trimmed reply to a
    rewrite request. *)
Definition held_prompt (env : Env) (cfg : Config) (p : str) : Prop :=
  p = INITIAL_PROMPT cfg
  \/ exists n q m i text,
       chat_completion env n (rewrite_messages cfg q m i) = Some text
       /\ p = strip text.

(** What each way of leaving the loop says about the history. *)
Definition exit_postcondition (cfg : Config) (why : Exit)
    (history : list Metrics) : Prop :=
  match why with
  | TargetReached =>
      exists h m,
        history = h ++ [m]
        /\ fge (overall m) (TARGET_ACCURACY cfg) = true
  | Plateau =>
      exists h previous m,
        history = h ++ [previous; m]
        /\ fge (overall m) (TARGET_ACCURACY cfg) = false
        /\ flt (overall m - overall previous)%float (MIN_IMPROVEMENT cfg)
           = true
  | BudgetExhausted => True
  end.

(** The remote calls of "Generate next prompt" in iteration [it]: none in
    the last iteration, else the rewrite and, in iteration 1 with research
    enabled, the research before it. *)
Definition rewrite_calls (cfg : Config) (it : Z) : nat :=
  if it <? MAX_ITERATIONS cfg
  then (if USE_PERPLEXITY cfg && (it =? 1) then 2%nat else 1%nat)
  else 0%nat.

(** The remote calls of the passes over [its] when none breaks or raises. *)
Definition pass_calls (cfg : Config) (suite : list TestCase) (its : list Z)
  : nat :=
  list_sum (map (fun it => 2 * List.length suite + rewrite_calls cfg it)%nat
                its).

(** The research notes a pass hands to the rewriter in iteration [it],
    when the research service would be asked at call [n]: the answer of
    the service in iteration 1 with research enabled, if it is not empty,
    and the empty string otherwise. *)
Definition pass_insights (env : Env) (cfg : Config) (it : Z) (m : Metrics)
    (n : nat) : str :=
  if USE_PERPLEXITY cfg && (it =? 1) then
    match research env n (function_acc m) (overall m) with
    | Some text => if truthy text then text else []
    | None => []
    end
  else [].

(** The number of the rewrite call of a pass whose iteration ended at
    call [n]: the research call, if any, comes first. *)
Definition rewrite_call_number (cfg : Config) (it : Z) (n : nat) : nat :=
  Nat.add (if USE_PERPLEXITY cfg && (it =? 1) then 1%nat else 0%nat) n.

(** A computation that raises nothing. *)
Definition sure {A} (c : M A) : Prop :=
  forall s, exists a, fst (c s) = Ok a.

(** A variation as the suite builder keeps them: not empty, trimmed, and
    on one line. *)
Definition clean_line (v : str) : Prop :=
  v <> [] /\ strip v = v /\ ~ In newline v.

(** The request an assistant call sends through the Claude client when
    [render] builds its messages. *)
Definition assistant_request (c : ClaudeClient)
    (render : Request -> list ChatMessage) (tools : list FunctionSpec)
    (q p : str) : ClaudeRequest :=
  let st := split_system (Some []) (render (assistant_messages q p)) in
  claude_request c (or_empty (fst st)) (snd st)
                 (Some (map claude_tool tools)) 0.7%float 500.

(** A (stub) response of one text block, and one of a tool call after
    some text. *)
Definition text_response (text : str) : ClaudeResponse :=
  {| stop_reason := lit "end_turn"; response_content := [TextBlock text] |}.

Definition tool_response (name : str) (input : Json) : ClaudeResponse :=
  {| stop_reason := lit "tool_use";
     response_content :=
       [TextBlock (lit "Let me help."); ToolUseBlock name input;
        ToolUseBlock (lit "escalate_to_human") JNull] |}.

(** A client that always answers with that tool call, and a [json.dumps]
    and [json.loads] for the one input it uses. *)
Definition stub_client : ClaudeClient :=
  {| messages_create := fun _ _ =>
       Some (tool_response answer_question (JObject []));
     claude_model := lit "claude-sonnet-4-20250514" |}.

Definition stub_dumps (j : Json) : str := lit "{}".

Definition stub_env : Env :=
  {| chat_completion := scripted_chat;
     chat_completion_with_tools := fun _ _ => None;
     research := fun _ _ _ => None;
     json_loads := fun _ => Some (JObject []) |}.

Definition stub_tools : list FunctionSpec :=
  [{| fn_name := answer_question;
      fn_description :=
        lit "Answer general questions and provide information to the user";
      fn_parameters := JObject [(lit "type", JString (lit "object"))] |}].

(** Settings with the key of the primary model and no research key. *)
Definition claude_settings : Settings :=
  {| ANTHROPIC_API_KEY := Some (lit "sk-ant-test");
     OPENAI_API_KEY := None;
     PERPLEXITY_API_KEY := Some [];
     primary_model := lit "CLAUDE";
     use_perplexity := true |}.

(** An assistant that is wrong in its first calls only, with research
    enabled and a budget of two iterations: over a suite of two tests the
    first iteration is all wrong, the second all right. *)
Definition rising_tools (n : nat) (_ : Request) : option Message :=
  if (n <? 6)%nat then Some (Content (lit "Sure."))
  else Some (FunctionCall answer_question (lit "{}")).

Definition rising_env : Env :=
  {| chat_completion := scripted_chat;
     chat_completion_with_tools := rising_tools;
     research := fun _ _ _ => Some (lit "Use few-shot examples.");
     json_loads := fun _ => Some (JObject []) |}.

Definition rising_cfg : Config :=
  {| PRIMARY_MODEL := CLAUDE;
     MAX_ITERATIONS := 2;
     TARGET_ACCURACY := 0.9;
     MIN_IMPROVEMENT := 0.02;
     VARIATIONS_PER_QUERY := 1;
     FUNCTION_WEIGHT := 0.5;
     PARAMETER_WEIGHT := 0.25;
     USE_PERPLEXITY := true;
     TEST_QUERIES := [lit "What time is it?"; lit "Tell me a joke"];
     INITIAL_PROMPT := lit "You are a voice assistant." |}.

(** A configuration whose function weight is infinite. *)
Definition infinite_weight_cfg : Config :=
  {| PRIMARY_MODEL := CLAUDE;
     MAX_ITERATIONS := 5;
     TARGET_ACCURACY := 0.9;
     MIN_IMPROVEMENT := 0.02;
     VARIATIONS_PER_QUERY := 2;
     FUNCTION_WEIGHT := infinity;
     PARAMETER_WEIGHT := 0.3;
     USE_PERPLEXITY := false;
     TEST_QUERIES := [];
     INITIAL_PROMPT := lit "You are a voice assistant." |}.

(** A reply whose second line holds a carriage return and a line
    separator (U+2028) between two words. *)
Definition odd_reply : str :=
  lit " first rewording " ++ [10%N] ++ lit "second" ++ [13%N; 8232%N]
  ++ lit "rewording".
(** * Lemmas *)

(** ** Sample values *)

Example strip_sample :
  strip (lit "  answer_question
 ") = lit "answer_question".
Proof. reflexivity. Qed.

Example split_sample :
  split newline (lit "a

b") = [lit "a"; []; lit "b"].
Proof. reflexivity. Qed.

Example kept_lines_sample :
  kept_lines (lit " first

  second
") = [lit "first"; lit "second"].
Proof. reflexivity. Qed.

Example slice_to_sample :
  slice_to 2 [1; 2; 3] = [1; 2] /\ slice_to 5 [1; 2; 3] = [1; 2; 3]
  /\ slice_to 0 [1; 2; 3] = [] /\ slice_to (-1) [1; 2; 3] = [1; 2].
Proof. repeat split. Qed.

Example py_range_sample :
  py_range 1 (5 + 1) = [1; 2; 3; 4; 5] /\ py_range 1 (0 + 1) = [].
Proof. split; reflexivity. Qed.

Example true_div_sample :
  (float_of_nat 141 / float_of_nat 200 = 0.705)%float
  /\ (float_of_nat 140 / float_of_nat 200 = 0.70)%float.
Proof. split; reflexivity. Qed.

Example improvement_sample :
  flt (0.705 - 0.70)%float 0.02%float = true
  /\ fge 0.705%float 0.9%float = false.
Proof. split; reflexivity. Qed.

Example py_eq_sample :
  py_eq None (lit "unknown") = false
  /\ py_eq (Some (lit "answer_question")) (lit "answer_question") = true
  /\ py_eq (Some (lit "escalate_to_human")) (lit "answer_question") = false.
Proof. repeat split. Qed.

(** ** Computations *)


Lemma same_self_refl s : same_self s s.
Proof. repeat split. Qed.

Lemma same_self_trans s1 s2 s3 :
  same_self s1 s2 -> same_self s2 s3 -> same_self s1 s3.
Proof.
  unfold same_self. intros (H1 & H2 & H3) (K1 & K2 & K3).
  repeat split; congruence.
Qed.


Lemma quiet_ret A (a : A) : quiet (ret a).
Proof. intro s. apply same_self_refl. Qed.

Lemma quiet_raise A e : quiet (@raise A e).
Proof. intro s. apply same_self_refl. Qed.

Lemma quiet_remote A (service : nat -> A) : quiet (remote service).
Proof. intro s. repeat split. Qed.

Lemma quiet_bind A B (c : M A) (k : A -> M B) :
  quiet c -> (forall a, quiet (k a)) -> quiet (bind c k).
Proof.
  intros Hc Hk s. unfold bind.
  specialize (Hc s). destruct (c s) as [[a | e] s1]; simpl in *.
  - eapply same_self_trans; [exact Hc | apply Hk].
  - exact Hc.
Qed.

Lemma bind_ok A B (c : M A) (k : A -> M B) s b s' :
  bind c k s = (Ok b, s') ->
  exists a s1, c s = (Ok a, s1) /\ k a s1 = (Ok b, s').
Proof.
  unfold bind. destruct (c s) as [[a | e] s1]; intro H.
  - exists a, s1. split; [reflexivity | exact H].
  - discriminate H.
Qed.

Lemma quiet_get A (field : Store -> A) : quiet (get field).
Proof. intro s. apply same_self_refl. Qed.

Ltac quiet_steps :=
  repeat first
    [ apply quiet_ret | apply quiet_raise | apply quiet_remote
    | apply quiet_get
    | apply quiet_bind; [ | intro ]
    | match goal with
      | |- quiet (match ?x with _ => _ end) => destruct x
      | |- quiet (if ?b then _ else _) => destruct b
      end ].

Section StoreEffects.

Variable env : Env.
Variable cfg : Config.

Lemma quiet_generate_query_variations q k :
  quiet (generate_query_variations env q k).
Proof. unfold generate_query_variations. quiet_steps. Qed.

Lemma quiet_call_voice_assistant q p :
  quiet (call_voice_assistant env q p).
Proof. unfold call_voice_assistant. quiet_steps. Qed.

Lemma quiet_get_expected_function q :
  quiet (get_expected_function env q).
Proof. unfold get_expected_function. quiet_steps. Qed.

Lemma quiet_research_optimization_strategies m :
  quiet (research_optimization_strategies env cfg m).
Proof. unfold research_optimization_strategies. quiet_steps. Qed.

Lemma quiet_optimize_prompt p m r :
  quiet (optimize_prompt env cfg p m r).
Proof. unfold optimize_prompt. quiet_steps. Qed.

Lemma quiet_evaluate p t : quiet (evaluate env p t).
Proof.
  unfold evaluate.
  apply quiet_bind; [apply quiet_call_voice_assistant | intro].
  apply quiet_bind; [apply quiet_get_expected_function | intro].
  apply quiet_ret.
Qed.

Lemma quiet_evaluate_all p suite : quiet (evaluate_all env p suite).
Proof.
  induction suite as [| t rest IH]; simpl.
  - apply quiet_ret.
  - apply quiet_bind; [apply quiet_evaluate | intro].
    apply quiet_bind; [exact IH | intro]. apply quiet_ret.
Qed.

Lemma quiet_true_div a b : quiet (true_div a b).
Proof. unfold true_div. quiet_steps. Qed.

Lemma quiet_run_iteration p suite it :
  quiet (run_iteration env cfg p suite it).
Proof.
  unfold run_iteration.
  apply quiet_bind; [apply quiet_evaluate_all | intro].
  apply quiet_bind; [ | intro; apply quiet_ret].
  destruct (0 <? _)%nat; [apply quiet_true_div | apply quiet_ret].
Qed.

Lemma quiet_generate_test_suite queries :
  quiet (generate_test_suite env cfg queries).
Proof.
  induction queries as [| q rest IH]; simpl.
  - apply quiet_ret.
  - apply quiet_bind; [apply quiet_generate_query_variations | intro].
    apply quiet_bind; [exact IH | intro]. apply quiet_ret.
Qed.

End StoreEffects.

(** ** One iteration *)


Section Iteration.

Variable env : Env.
Variable cfg : Config.

Lemma item_from_end_quiet A (l : list A) k : quiet (item_from_end l k).
Proof. unfold item_from_end. quiet_steps. Qed.

(** [run_iteration] returns the metrics of the evaluations it made. *)
Lemma run_iteration_ok prompt suite it s m s' :
  run_iteration env cfg prompt suite it s = (Ok m, s') ->
  exists results,
    evaluate_all env prompt suite s = (Ok results, s')
    /\ m = {| iteration := it;
              overall := overall_score (fraction_correct results)
                         (FUNCTION_WEIGHT cfg) (PARAMETER_WEIGHT cfg);
              function_acc := fraction_correct results;
              n_correct := count_correct results;
              total := List.length results;
              evaluations := results |}.
Proof.
  unfold run_iteration. intro H.
  apply bind_ok in H. destruct H as (results & s1 & Hev & H).
  exists results. unfold fraction_correct.
  destruct (List.length results) as [| n] eqn:Hlen.
  - simpl in H. unfold bind, ret in H. inversion H; subst.
    split; [exact Hev | reflexivity].
  - change (0 <? S n)%nat with true in *. cbv iota in *.
    unfold bind, true_div, ret in H. inversion H; subst.
    split; [exact Hev | reflexivity].
Qed.

Lemma run_iteration_well_scored prompt suite it s m s' :
  run_iteration env cfg prompt suite it s = (Ok m, s') -> well_scored cfg m.
Proof.
  intro H. apply run_iteration_ok in H. destruct H as (results & _ & ->).
  repeat split.
Qed.

Lemma evaluate_ok prompt test s e s' :
  evaluate env prompt test s = (Ok e, s') -> well_judged e.
Proof.
  unfold evaluate. intro H.
  apply bind_ok in H. destruct H as (r & s1 & _ & H).
  apply bind_ok in H. destruct H as (x & s2 & _ & H).
  unfold ret in H. inversion H; subst. reflexivity.
Qed.

Lemma evaluate_all_ok prompt suite : forall s results s',
  evaluate_all env prompt suite s = (Ok results, s') ->
  Forall well_judged results /\ List.length results = List.length suite.
Proof.
  induction suite as [| t rest IH]; simpl; intros s results s' H.
  - unfold ret in H. inversion H. split; [constructor | reflexivity].
  - apply bind_ok in H. destruct H as (e & s1 & He & H).
    apply bind_ok in H. destruct H as (rs & s2 & Hrs & H).
    unfold ret in H. inversion H; subst.
    apply evaluate_ok in He. apply IH in Hrs. destruct Hrs as [Hj Hl].
    split; [constructor; assumption | simpl; congruence].
Qed.

Lemma run_iteration_well_judged prompt suite it s m s' :
  run_iteration env cfg prompt suite it s = (Ok m, s') ->
  Forall well_judged (evaluations m)
  /\ List.length (evaluations m) = List.length suite.
Proof.
  intro H. apply run_iteration_ok in H. destruct H as (results & Hev & ->).
  simpl. eapply evaluate_all_ok; exact Hev.
Qed.

End Iteration.

(** ** The order of floats *)


Lemma SFltb_SFleb x y : SFltb x y = true -> SFleb x y = true.
Proof.
  unfold SFltb, SFleb. destruct (SFcompare x y) as [[| |] |]; congruence.
Qed.

Ltac compare_mantissas ex ey ez mx my mz :=
  destruct (Z.compare_spec ex ey), (Z.compare_spec ey ez),
           (Z.compare_spec ex ez);
  try congruence; try lia; subst;
  rewrite ?Pos.compare_cont_spec; simpl;
  destruct (Pos.compare_spec mx my), (Pos.compare_spec my mz),
           (Pos.compare_spec mx mz);
  simpl; try congruence; try lia.

Lemma SFleb_trans x y z :
  SFleb x y = true -> SFleb y z = true -> SFleb x z = true.
Proof.
  unfold SFleb.
  destruct x as [sx | sx | | sx mx ex], y as [sy | sy | | sy my ey],
           z as [sz | sz | | sz mz ez];
    simpl; try congruence;
    repeat match goal with s : bool |- _ => destruct s end;
    simpl; try congruence;
    compare_mantissas ex ey ez mx my mz.
Qed.

Lemma SFltb_right_ordered x y : SFltb x y = true -> SFleb y y = true.
Proof.
  unfold SFltb, SFleb.
  destruct x as [sx | sx | | sx mx ex], y as [sy | sy | | sy my ey];
    simpl; try congruence;
    repeat match goal with s : bool |- _ => destruct s end;
    simpl; try congruence; intros _;
    rewrite Z.compare_refl, Pos.compare_cont_refl; reflexivity.
Qed.

Lemma fgt_leb x y : fgt x y = true -> PrimFloat.leb y x = true.
Proof.
  unfold fgt. rewrite ltb_spec, leb_spec. apply SFltb_SFleb.
Qed.

Lemma fgt_ordered x y : fgt x y = true -> ordered x.
Proof.
  unfold fgt, ordered. rewrite ltb_spec, leb_spec. apply SFltb_right_ordered.
Qed.

Lemma leb_trans x y z :
  PrimFloat.leb x y = true -> PrimFloat.leb y z = true ->
  PrimFloat.leb x z = true.
Proof. rewrite !leb_spec. apply SFleb_trans. Qed.

Lemma ordered_zero : ordered 0%float.
Proof. reflexivity. Qed.

(** A finite float is a zero or a signed mantissa and exponent. *)
Lemma Prim2SF_finite w :
  PrimFloat.is_finite w = true ->
  (exists s, Prim2SF w = S754_zero s)
  \/ (exists s m e, Prim2SF w = S754_finite s m e).
Proof.
  unfold PrimFloat.is_finite, Prim2SF. intro H.
  apply negb_true_iff, orb_false_iff in H. destruct H as [Hn Hi].
  rewrite Hn, Hi.
  destruct (PrimFloat.is_zero w); [left; eexists; reflexivity |].
  destruct (Z.frexp w) as [r ex].
  destruct (shr_fexp _ _ _ _ _) as [shr e'].
  destruct (shr_m shr); [left | right | left]; repeat eexists.
Qed.

(** Zero times a finite weight adds nothing to a score. *)
Lemma zero_weight_term w y :
  PrimFloat.is_finite w = true -> same_value (0 * w + y)%float y.
Proof.
  intro Hw.
  assert (Hz : exists s, Prim2SF (0 * w)%float = S754_zero s).
  { rewrite mul_spec. change (Prim2SF 0%float) with (S754_zero false).
    destruct (Prim2SF_finite w Hw) as [[s ->] | (s & m & e & ->)];
      eexists; reflexivity. }
  destruct Hz as [s Hz].
  pose proof (add_spec (0 * w)%float y) as Ha. rewrite Hz in Ha.
  destruct (Prim2SF y) as [sy | sy | | sy my ey] eqn:Hy.
  - right. rewrite eqb_spec, Ha, Hy. destruct s, sy; reflexivity.
  - left. apply Prim2SF_inj. rewrite Ha, Hy. reflexivity.
  - left. apply Prim2SF_inj. rewrite Ha, Hy. reflexivity.
  - left. apply Prim2SF_inj. rewrite Ha, Hy. reflexivity.
Qed.

(** ** The loop *)


Section Loop.

Variable env : Env.
Variable cfg : Config.

Lemma quiet_check_stopping m it : quiet (check_stopping cfg m it).
Proof.
  unfold check_stopping. quiet_steps. apply item_from_end_quiet.
Qed.

Lemma quiet_next_prompt m it p : quiet (next_prompt env cfg m it p).
Proof.
  unfold next_prompt.
  destruct (it <? _); [ | apply quiet_ret].
  apply quiet_bind; [ | intro; apply quiet_optimize_prompt].
  destruct (_ && _);
    [apply quiet_research_optimization_strategies | apply quiet_ret].
Qed.



Lemma quiet_decide m it p : quiet (decide env cfg m it p).
Proof.
  unfold decide.
  apply quiet_bind; [apply quiet_check_stopping | intros [why |]].
  - apply quiet_ret.
  - apply quiet_bind; [apply quiet_next_prompt | intro; apply quiet_ret].
Qed.

(** A pass is the iteration, the tracking, then the decision. *)
Lemma loop_body_run suite it p s :
  loop_body env cfg suite it p s
  = match run_iteration env cfg p suite it s with
    | (Ok m, s1) => decide env cfg m it p (after_tracking p m s1)
    | (Raise e, s1) => (Raise e, s1)
    end.
Proof.
  unfold loop_body, bind at 1.
  destruct (run_iteration env cfg p suite it s) as [[m | e] s1];
    [ | reflexivity].
  unfold bind at 1. unfold append_metrics.
  unfold bind at 1. unfold track_best, bind at 1, get. cbn [best_score].
  unfold after_tracking, decide.
  destruct (fgt (overall m) (best_score s1)); reflexivity.
Qed.

Lemma loop_body_tracked suite it p s m s1 :
  run_iteration env cfg p suite it s = (Ok m, s1) ->
  tracked p m s (snd (loop_body env cfg suite it p s)).
Proof.
  intro Hrun. rewrite loop_body_run, Hrun.
  pose proof (quiet_run_iteration env cfg p suite it s) as Hq.
  rewrite Hrun in Hq. destruct Hq as (Hh & Hp & Hb). simpl in Hh, Hp, Hb.
  destruct (quiet_decide m it p (after_tracking p m s1)) as (Kh & Kp & Kb).
  unfold tracked. rewrite Kh, Kp, Kb. simpl. rewrite Hh, Hp, Hb.
  split; [reflexivity |].
  destruct (fgt (overall m) (best_score s)); split; reflexivity.
Qed.

Lemma loop_body_raise suite it p s e s1 :
  run_iteration env cfg p suite it s = (Raise e, s1) ->
  loop_body env cfg suite it p s = (Raise e, s1).
Proof. intro Hrun. rewrite loop_body_run, Hrun. reflexivity. Qed.

End Loop.

(** ** The whole run *)

Section Run.

Variable env : Env.
Variable cfg : Config.


Lemma check_stopping_exit m it s why s' :
  check_stopping cfg m it s = (Ok (Some why), s') -> why <> BudgetExhausted.
Proof.
  unfold check_stopping.
  destruct (fge _ _); [unfold ret; intro H; inversion H; discriminate |].
  destruct (1 <? it); [ | unfold ret; intro H; inversion H].
  intro H. apply bind_ok in H. destruct H as (h & s1 & _ & H).
  apply bind_ok in H. destruct H as (prev & s2 & _ & H).
  destruct (flt _ _); unfold ret in H; inversion H; discriminate.
Qed.

Lemma decide_exit m it p s why s' :
  decide env cfg m it p s = (Ok (Break why), s') -> why <> BudgetExhausted.
Proof.
  unfold decide, bind at 1.
  destruct (check_stopping cfg m it s) as [[[w |] | e] s1] eqn:Hc.
  - unfold ret. intro H. inversion H; subst.
    eapply check_stopping_exit; exact Hc.
  - unfold bind. destruct (next_prompt env cfg m it p s1) as [[n | e] s2];
      unfold ret; intro H; inversion H.
  - intro H. inversion H.
Qed.

Lemma best_after_cons b m h :
  best_after b (m :: h)
  = best_after (if fgt (overall m) b then overall m else b) h.
Proof. reflexivity. Qed.

(** One turn of the loop, by cases on its iteration and its decision. *)
Lemma for_iterations_cons suite it rest p s :
  for_iterations env cfg suite (it :: rest) p s
  = match run_iteration env cfg p suite it s with
    | (Ok m, s1) =>
        match decide env cfg m it p (after_tracking p m s1) with
        | (Ok (Break why), s2) => (Ok why, s2)
        | (Ok (Next next), s2) => for_iterations env cfg suite rest next s2
        | (Raise e, s2) => (Raise e, s2)
        end
    | (Raise e, s1) => (Raise e, s1)
    end.
Proof.
  cbn [for_iterations]. unfold bind at 1. rewrite loop_body_run.
  destruct (run_iteration env cfg p suite it s) as [[m | e] s1];
    [ | reflexivity].
  destruct (decide env cfg m it p (after_tracking p m s1))
    as [[[why | next] | e] s2]; reflexivity.
Qed.

Lemma run_iteration_number p suite it s m s1 :
  run_iteration env cfg p suite it s = (Ok m, s1) -> iteration m = it.
Proof.
  intro H. apply run_iteration_ok in H. destruct H as (results & _ & ->).
  reflexivity.
Qed.

Lemma for_iterations_spec suite its : forall p s,
  let out := for_iterations env cfg suite its p s in
  exists new,
    metrics_history (snd out) = metrics_history s ++ new
    /\ (List.length new <= List.length its)%nat
    /\ best_score (snd out) = best_after (best_score s) new
    /\ Forall (produced env cfg suite) new
    /\ (fst out = Ok BudgetExhausted -> List.length new = List.length its)
    /\ map iteration new = firstn (List.length new) its.
Proof.
  induction its as [| it rest IH]; intros p s; cbn zeta.
  - exists []. simpl. rewrite app_nil_r. repeat split; auto.
  - rewrite for_iterations_cons.
    pose proof (quiet_run_iteration env cfg p suite it s) as Hq.
    destruct (run_iteration env cfg p suite it s) as [[m | e] s1] eqn:Hrun.
    + destruct Hq as (Hh & Hp & Hb). simpl in Hh, Hp, Hb.
      pose proof (run_iteration_number _ _ _ _ _ _ Hrun) as Hit.
      pose proof (quiet_decide env cfg m it p (after_tracking p m s1)) as Hd.
      destruct (decide env cfg m it p (after_tracking p m s1))
        as [[[why | next] | e] s2] eqn:Hdec;
        destruct Hd as (Kh & Kp & Kb); simpl in Kh, Kp, Kb.
      * exists [m]. simpl. rewrite Kh, Kb, Hh, Hb, Hit.
        repeat split; [lia | | ].
        -- constructor; [ | constructor]. exists p, it, s, s1. exact Hrun.
        -- intro H. inversion H; subst.
           apply decide_exit in Hdec. contradiction.
      * destruct (IH next s2) as (new & Ih & Il & Ib & Ip & Ie & In).
        exists (m :: new). rewrite Ih, Ib, Kh, Kb. simpl.
        rewrite Hh, Hb, <- app_assoc, In, Hit. simpl.
        repeat split; [lia | | ].
        -- constructor; [ | exact Ip]. exists p, it, s, s1. exact Hrun.
        -- intro H. rewrite (Ie H). reflexivity.
      * exists [m]. simpl. rewrite Kh, Kb, Hh, Hb, Hit.
        repeat split; [lia | | ].
        -- constructor; [ | constructor]. exists p, it, s, s1. exact Hrun.
        -- intro H. discriminate H.
    + destruct Hq as (Hh & Hp & Hb). simpl in Hh, Hp, Hb.
      exists []. simpl. rewrite app_nil_r, Hh, Hb.
      repeat split; [lia | constructor | intro H; discriminate H].
Qed.

End Run.

(** ** The test suite *)

Section Suite.

Variable env : Env.
Variable cfg : Config.

Lemma generate_query_variations_run q k s :
  generate_query_variations env q k s
  = (Ok (q :: extras_for env k q (calls s)), tick s).
Proof.
  unfold generate_query_variations, extras_for, bind, remote.
  destruct (chat_completion env (calls s) (variations_messages q k));
    reflexivity.
Qed.

Lemma ticks_tick k s : ticks k (tick s) = ticks (S k) s.
Proof. unfold ticks, tick. simpl. f_equal. lia. Qed.

Lemma ticks_zero s : ticks 0 s = s.
Proof. destruct s. reflexivity. Qed.

Lemma generate_test_suite_run queries : forall s,
  generate_test_suite env cfg queries s
  = (Ok (suite_of (seeds_with_extras env (VARIATIONS_PER_QUERY cfg)
                                     (calls s) queries)),
     ticks (List.length queries) s).
Proof.
  induction queries as [| q rest IH]; intro s.
  - simpl. rewrite ticks_zero. reflexivity.
  - cbn [generate_test_suite]. unfold bind at 1.
    rewrite generate_query_variations_run.
    unfold bind at 1. rewrite IH. unfold ret.
    cbn [List.length seeds_with_extras]. rewrite ticks_tick.
    reflexivity.
Qed.

Lemma seeds_with_extras_seeds k queries : forall n,
  map fst (seeds_with_extras env k n queries) = queries.
Proof.
  induction queries as [| q rest IH]; intro n; simpl;
    [reflexivity | rewrite IH; reflexivity].
Qed.

Lemma slice_to_length A (n : Z) (l : list A) :
  0 <= n -> Z.of_nat (List.length (slice_to n l)) <= n.
Proof.
  intro Hn. unfold slice_to.
  destruct (0 <=? n) eqn:E; [ | lia].
  rewrite length_firstn. lia.
Qed.

Lemma extras_for_length k q n :
  1 <= k -> Z.of_nat (List.length (extras_for env k q n)) <= k - 1.
Proof.
  intro Hk. unfold extras_for.
  destruct (chat_completion env n (variations_messages q k)).
  - apply slice_to_length. lia.
  - simpl. lia.
Qed.

End Suite.

(** ** The shape of a suite *)

Lemma suite_of_app a b : suite_of (a ++ b) = suite_of a ++ suite_of b.
Proof. unfold suite_of. apply flat_map_app. Qed.

Lemma suite_of_originals seeds :
  Forall (fun t => In (original t) (map fst seeds)) (suite_of seeds).
Proof.
  induction seeds as [| [q vs] rest IH]; [constructor |].
  change (suite_of ((q, vs) :: rest))
    with (seed_case q :: map (variation_case q) vs ++ suite_of rest).
  constructor; [left; reflexivity |].
  apply Forall_app. split.
  - apply Forall_forall. intros t Ht. apply in_map_iff in Ht.
    destruct Ht as (v & <- & _). left. reflexivity.
  - eapply Forall_impl; [ | exact IH]. intros t Ht. right. exact Ht.
Qed.

Lemma suite_of_split seeds before q after :
  map fst seeds = before ++ q :: after ->
  exists sb vs sa,
    suite_of seeds
    = sb ++ seed_case q :: map (variation_case q) vs ++ sa
    /\ Forall (fun t => In (original t) before) sb
    /\ Forall (fun t => In (original t) after) sa.
Proof.
  intro H. apply map_eq_app in H.
  destruct H as (l1 & l2 & -> & H1 & H2).
  destruct l2 as [| [q' vs] l2]; [discriminate H2 |].
  simpl in H2. injection H2 as -> H2.
  exists (suite_of l1), vs, (suite_of l2). rewrite suite_of_app.
  split; [reflexivity |]. split.
  - rewrite <- H1. apply suite_of_originals.
  - rewrite <- H2. apply suite_of_originals.
Qed.

Lemma suite_of_no_extras seeds :
  Forall (fun sv => snd sv = []) seeds ->
  suite_of seeds = map seed_case (map fst seeds).
Proof.
  induction 1 as [| [q vs] rest Hq _ IH]; [reflexivity |].
  simpl in Hq. subst vs.
  change (suite_of ((q, []) :: rest)) with (seed_case q :: suite_of rest).
  rewrite IH. reflexivity.
Qed.

Lemma seeds_with_extras_one env queries : forall n,
  Forall (fun sv => snd sv = []) (seeds_with_extras env 1 n queries).
Proof.
  induction queries as [| q rest IH]; intro n; simpl; constructor.
  - unfold extras_for. simpl.
    destruct (chat_completion env n (variations_messages q 1)); reflexivity.
  - apply IH.
Qed.

Lemma suite_of_length_bound k seeds :
  0 <= k ->
  Forall (fun sv => Z.of_nat (List.length (snd sv)) <= k - 1) seeds ->
  Z.of_nat (List.length (suite_of seeds)) <= Z.of_nat (List.length seeds) * k.
Proof.
  intros Hk H. induction H as [| [q vs] rest Hq _ IH]; [simpl; lia |].
  change (suite_of ((q, vs) :: rest))
    with (seed_case q :: map (variation_case q) vs ++ suite_of rest).
  simpl in Hq. cbn [List.length]. rewrite length_app, length_map. nia.
Qed.

Lemma seeds_with_extras_bound env k queries : forall n,
  1 <= k ->
  Forall (fun sv => Z.of_nat (List.length (snd sv)) <= k - 1)
         (seeds_with_extras env k n queries).
Proof.
  induction queries as [| q rest IH]; intros n Hk; simpl; constructor.
  - simpl. apply extras_for_length. exact Hk.
  - apply IH. exact Hk.
Qed.

(** ** The run from a fresh optimizer *)

Section FreshRun.

Variable env : Env.
Variable cfg : Config.

(** The suite the run builds, and the store it is built in. *)
Lemma optimization_loop_run s :
  optimization_loop env cfg s
  = for_iterations env cfg
      (suite_of (seeds_with_extras env (VARIATIONS_PER_QUERY cfg) (calls s)
                                   (TEST_QUERIES cfg)))
      (py_range 1 (MAX_ITERATIONS cfg + 1)) (INITIAL_PROMPT cfg)
      (ticks (List.length (TEST_QUERIES cfg)) s).
Proof.
  unfold optimization_loop, bind. rewrite generate_test_suite_run.
  reflexivity.
Qed.

Lemma py_range_length lo hi : List.length (py_range lo hi) = Z.to_nat (hi - lo).
Proof. unfold py_range. rewrite length_map, length_seq. reflexivity. Qed.

Lemma optimization_loop_spec :
  let out := optimization_loop env cfg (init_store cfg) in
  exists suite,
    fst (generate_test_suite env cfg (TEST_QUERIES cfg) (init_store cfg))
    = Ok suite
    /\ Forall (produced env cfg suite) (metrics_history (snd out))
    /\ (List.length (metrics_history (snd out))
        <= Z.to_nat (MAX_ITERATIONS cfg))%nat
    /\ best_score (snd out) = best_after 0%float (metrics_history (snd out))
    /\ (fst out = Ok BudgetExhausted ->
        List.length (metrics_history (snd out))
        = Z.to_nat (MAX_ITERATIONS cfg)).
Proof.
  cbn zeta. rewrite optimization_loop_run, generate_test_suite_run.
  set (suite := suite_of _).
  destruct (for_iterations_spec env cfg suite
              (py_range 1 (MAX_ITERATIONS cfg + 1)) (INITIAL_PROMPT cfg)
              (ticks (List.length (TEST_QUERIES cfg)) (init_store cfg)))
    as (new & Hh & Hl & Hb & Hp & He & _).
  rewrite py_range_length in Hl, He.
  replace (MAX_ITERATIONS cfg + 1 - 1) with (MAX_ITERATIONS cfg) in Hl, He
    by lia.
  simpl in Hh, Hb.
  exists suite. rewrite Hh, Hb.
  repeat split; assumption.
Qed.

End FreshRun.

(** ** Equality of strings *)

Lemma str_eqb_eq a : forall b, Str.eqb a b = true <-> a = b.
Proof.
  induction a as [| x a IH]; intros [| y b]; simpl;
    try (split; [discriminate | discriminate]); [tauto |].
  rewrite andb_true_iff, N.eqb_eq, IH.
  split; [intros [-> ->]; reflexivity | intro H; inversion H; auto].
Qed.

Lemma py_eq_true a b : py_eq a b = true <-> a = Some b.
Proof.
  destruct a as [x |]; simpl.
  - rewrite str_eqb_eq. split; [intros ->; reflexivity | congruence].
  - split; discriminate.
Qed.

(** ** Trimming *)

Lemma lstrip_spec s :
  exists l,
    s = l ++ lstrip s
    /\ forallb isspace l = true
    /\ match lstrip s with
       | c :: _ => isspace c = false
       | [] => True
       end.
Proof.
  induction s as [| c r (l & Hs & Hl & Hh)].
  - exists []. repeat split.
  - simpl. destruct (isspace c) eqn:Hc.
    + exists (c :: l). simpl. rewrite Hc, Hl. repeat split; [ | exact Hh].
      f_equal. exact Hs.
    + exists []. repeat split. exact Hc.
Qed.

Lemma rstrip_spec s :
  exists r,
    s = rstrip s ++ r
    /\ forallb isspace r = true
    /\ match rev (rstrip s) with
       | c :: _ => isspace c = false
       | [] => True
       end.
Proof.
  unfold rstrip. destruct (lstrip_spec (rev s)) as (l & Hs & Hl & Hh).
  exists (rev l). rewrite rev_involutive. repeat split; [ | | exact Hh].
  - rewrite <- rev_app_distr, <- Hs, rev_involutive. reflexivity.
  - rewrite forallb_forall in *. intros x Hx. apply Hl.
    apply in_rev. exact Hx.
Qed.

(** [strip] removes white space at both ends, and only that. *)
Lemma strip_spec s :
  exists l r,
    s = l ++ strip s ++ r
    /\ forallb isspace l = true
    /\ forallb isspace r = true
    /\ match strip s with
       | c :: _ => isspace c = false
       | [] => True
       end
    /\ match rev (strip s) with
       | c :: _ => isspace c = false
       | [] => True
       end.
Proof.
  unfold strip.
  destruct (lstrip_spec s) as (l & Hs & Hl & Hh).
  destruct (rstrip_spec (lstrip s)) as (r & Hr & Hrs & Ht).
  exists l, r. repeat split; try assumption.
  - rewrite <- Hr. exact Hs.
  - destruct (rstrip (lstrip s)) as [| c t] eqn:E; [exact I |].
    rewrite Hr in Hh. exact Hh.
Qed.

(** ** The rewriter and the probe *)

Section Calls.

Variable env : Env.
Variable cfg : Config.

Lemma optimize_prompt_run p m i s :
  optimize_prompt env cfg p m i s
  = (Ok match chat_completion env (calls s) (rewrite_messages cfg p m i) with
        | Some text => strip text
        | None => p
        end,
     tick s).
Proof.
  unfold optimize_prompt, bind, remote.
  destruct (chat_completion env (calls s) (rewrite_messages cfg p m i));
    reflexivity.
Qed.

Lemma get_expected_function_run q s :
  get_expected_function env q s
  = (Ok match chat_completion env (calls s) (expected_messages q) with
        | Some text => strip text
        | None => lit "unknown"
        end,
     tick s).
Proof.
  unfold get_expected_function, bind, remote.
  destruct (chat_completion env (calls s) (expected_messages q));
    reflexivity.
Qed.

Lemma research_optimization_strategies_ok m s :
  exists text s',
    research_optimization_strategies env cfg m s = (Ok text, s').
Proof.
  unfold research_optimization_strategies.
  destruct (negb (USE_PERPLEXITY cfg)); [repeat eexists |].
  unfold bind, remote.
  destruct (research env (calls s) (function_acc m) (overall m)) as [t |];
    [destruct (truthy t) | ]; repeat eexists.
Qed.

(** The next prompt is the current one or a trimmed reply to a rewrite
    request for the current one. *)
Lemma next_prompt_run m it p s :
  exists next s',
    next_prompt env cfg m it p s = (Ok next, s')
    /\ (next = p
        \/ exists n i text,
             chat_completion env n (rewrite_messages cfg p m i) = Some text
             /\ next = strip text).
Proof.
  unfold next_prompt. destruct (it <? MAX_ITERATIONS cfg).
  - unfold bind at 1.
    assert (H : exists i s1,
               (if USE_PERPLEXITY cfg && (it =? 1)
                then research_optimization_strategies env cfg m
                else ret []) s = (Ok i, s1)).
    { destruct (_ && _);
        [apply research_optimization_strategies_ok | repeat eexists]. }
    destruct H as (i & s1 & ->).
    rewrite optimize_prompt_run. eexists. eexists. split; [reflexivity |].
    destruct (chat_completion env (calls s1) (rewrite_messages cfg p m i))
      as [text |] eqn:E; [right | left; reflexivity].
    exists (calls s1), i, text. split; [exact E | reflexivity].
  - exists p, s. split; [reflexivity | left; reflexivity].
Qed.

End Calls.

(** ** The tracked best score *)

Lemma best_after_app b h1 h2 :
  best_after b (h1 ++ h2) = best_after (best_after b h1) h2.
Proof. unfold best_after. apply fold_left_app. Qed.

(** From a score that is a number, the tracked best never decreases and
    stays a number. *)
Lemma best_after_grows h : forall b,
  ordered b ->
  PrimFloat.leb b (best_after b h) = true /\ ordered (best_after b h).
Proof.
  induction h as [| m h IH]; intros b Hb.
  - split; exact Hb.
  - rewrite best_after_cons.
    destruct (fgt (overall m) b) eqn:E.
    + destruct (IH (overall m) (fgt_ordered _ _ E)) as [Hle Ho].
      split; [ | exact Ho].
      eapply leb_trans; [apply fgt_leb; exact E | exact Hle].
    + apply IH. exact Hb.
Qed.

Lemma firstn_longer A (j : nat) : forall (k : nat) (l : list A),
  (j <= k)%nat -> firstn k l = firstn j l ++ firstn (k - j) (skipn j l).
Proof.
  induction j as [| j IH]; intros k l Hjk.
  - simpl. rewrite Nat.sub_0_r. reflexivity.
  - destruct k as [| k]; [lia |]. destruct l as [| x l]; simpl.
    + rewrite firstn_nil. reflexivity.
    + rewrite (IH k l) by lia. reflexivity.
Qed.

Lemma best_after_prefixes h b j k :
  ordered b -> (j <= k)%nat ->
  PrimFloat.leb (best_after b (firstn j h)) (best_after b (firstn k h)) = true.
Proof.
  intros Hb Hjk.
  rewrite (firstn_longer _ j k h Hjk), best_after_app.
  apply best_after_grows. apply best_after_grows. exact Hb.
Qed.

(** ** The stopping rule *)

Section Stopping.

Variable env : Env.
Variable cfg : Config.

(** The checks of "Check stopping criteria", in their order. *)
Lemma check_stopping_run m it s :
  check_stopping cfg m it s
  = (if fge (overall m) (TARGET_ACCURACY cfg) then Ok (Some TargetReached)
     else if 1 <? it then
       match nth_error (rev (metrics_history s)) 1 with
       | Some previous =>
           if flt (overall m - overall previous)%float (MIN_IMPROVEMENT cfg)
           then Ok (Some Plateau)
           else Ok None
       | None => Raise IndexError
       end
     else Ok None,
     s).
Proof.
  unfold check_stopping.
  destruct (fge _ _); [reflexivity |].
  destruct (1 <? it); [ | reflexivity].
  unfold bind, get, item_from_end. change (Nat.pred 2) with 1%nat.
  destruct (nth_error (rev (metrics_history s)) 1); [ | reflexivity].
  unfold ret. destruct (flt _ _); reflexivity.
Qed.

Lemma previous_after_tracking p m s1 h prev :
  metrics_history s1 = h ++ [prev] ->
  nth_error (rev (metrics_history (after_tracking p m s1))) 1 = Some prev.
Proof.
  intro H. simpl. rewrite H, !rev_app_distr. reflexivity.
Qed.

Lemma decide_next m it p s :
  check_stopping cfg m it s = (Ok None, s) ->
  exists next s',
    decide env cfg m it p s = (Ok (Next next), s').
Proof.
  intro H. unfold decide, bind at 1. rewrite H.
  destruct (next_prompt_run env cfg m it p s) as (next & s' & Hn & _).
  unfold bind. rewrite Hn. exists next, s'. reflexivity.
Qed.

Lemma decide_break m it p s why :
  check_stopping cfg m it s = (Ok (Some why), s) ->
  decide env cfg m it p s = (Ok (Break why), s).
Proof. intro H. unfold decide, bind. rewrite H. reflexivity. Qed.

End Stopping.

(** ** Errors *)

Section Errors.

Variable env : Env.
Variable cfg : Config.

Lemma safe_ret A (a : A) : safe env (ret a).
Proof. intro s. exact I. Qed.

Lemma safe_remote A (service : nat -> A) : safe env (remote service).
Proof. intro s. exact I. Qed.

Lemma safe_bind A B (c : M A) (k : A -> M B) :
  safe env c -> (forall a, safe env (k a)) -> safe env (bind c k).
Proof.
  intros Hc Hk s. unfold bind. specialize (Hc s).
  destruct (c s) as [[a | e] s1]; simpl in *; [apply Hk | exact Hc].
Qed.

Lemma safe_call_voice_assistant q p : safe env (call_voice_assistant env q p).
Proof.
  unfold call_voice_assistant.
  apply safe_bind; [apply safe_remote | intros [[text | name arguments] |]];
    try apply safe_ret.
  destruct (json_loads env arguments) eqn:E; [apply safe_ret |].
  intro s. simpl. split; [reflexivity | exists arguments; exact E].
Qed.

Lemma safe_get_expected_function q : safe env (get_expected_function env q).
Proof.
  intro s. rewrite get_expected_function_run. exact I.
Qed.

Lemma safe_evaluate p t : safe env (evaluate env p t).
Proof.
  unfold evaluate.
  apply safe_bind; [apply safe_call_voice_assistant | intro].
  apply safe_bind; [apply safe_get_expected_function | intro].
  apply safe_ret.
Qed.

Lemma safe_evaluate_all p suite : safe env (evaluate_all env p suite).
Proof.
  induction suite as [| t rest IH]; simpl; [apply safe_ret |].
  apply safe_bind; [apply safe_evaluate | intro].
  apply safe_bind; [exact IH | intro]. apply safe_ret.
Qed.

(** The division of [run_iteration] is never reached with no result. *)
Lemma safe_run_iteration p suite it :
  safe env (run_iteration env cfg p suite it).
Proof.
  unfold run_iteration.
  apply safe_bind; [apply safe_evaluate_all | intro results].
  apply safe_bind; [ | intro; apply safe_ret].
  destruct (List.length results) as [| n]; [apply safe_ret |].
  change (0 <? S n)%nat with true. cbv iota. unfold true_div. apply safe_ret.
Qed.

(** In a run of a fresh optimizer the history holds the metrics of the
    [a] iterations done before iteration [a + 1]: the previous one is
    there whenever the stopping rule looks for it. *)
Lemma check_stopping_fresh m a s :
  List.length (metrics_history s) = S a ->
  exists stop, check_stopping cfg m (1 + Z.of_nat a) s = (Ok stop, s).
Proof.
  intro Hlen. rewrite check_stopping_run.
  destruct (fge _ _); [eexists; reflexivity |].
  destruct (1 <? 1 + Z.of_nat a) eqn:E; [ | eexists; reflexivity].
  apply Z.ltb_lt in E.
  assert (Hrev : List.length (rev (metrics_history s)) = S a)
    by (rewrite length_rev; exact Hlen).
  destruct (rev (metrics_history s)) as [| x [| y l]]; simpl in Hrev;
    try lia.
  simpl. destruct (flt _ _); eexists; reflexivity.
Qed.

Lemma for_iterations_fresh suite len : forall a p s,
  List.length (metrics_history s) = a ->
  match fst (for_iterations env cfg suite
               (map (fun k => 1 + Z.of_nat k) (seq a len)) p s) with
  | Ok _ => True
  | Raise e => e = JSONDecodeError /\ exists t, json_loads env t = None
  end.
Proof.
  induction len as [| len IH]; intros a p s Hlen; [exact I |].
  cbn [seq map]. rewrite for_iterations_cons.
  pose proof (safe_run_iteration p suite (1 + Z.of_nat a) s) as Hsafe.
  pose proof (quiet_run_iteration env cfg p suite (1 + Z.of_nat a) s) as Hq.
  destruct (run_iteration env cfg p suite (1 + Z.of_nat a) s)
    as [[m | e] s1]; [ | exact Hsafe].
  destruct Hq as (Hh & _). simpl in Hh.
  assert (Hlen' : List.length (metrics_history (after_tracking p m s1)) = S a).
  { simpl. rewrite length_app, Hh, Hlen. simpl. lia. }
  destruct (check_stopping_fresh m a _ Hlen') as ([why |] & Hc).
  - rewrite (decide_break env cfg m _ p _ why Hc). exact I.
  - destruct (decide_next env cfg m _ p _ Hc) as (next & s2 & Hd).
    pose proof (quiet_decide env cfg m (1 + Z.of_nat a) p
                  (after_tracking p m s1)) as Hqd.
    rewrite Hd in *. destruct Hqd as (Kh & _). simpl in Kh.
    apply IH. rewrite Kh, length_app, Hh, Hlen. simpl. lia.
Qed.

End Errors.

(** ** Remote calls *)

Section RemoteCalls.

Variable env : Env.
Variable cfg : Config.

Lemma costs_ret A (a : A) k : costs k (ret a).
Proof. intro s. simpl. lia. Qed.

Lemma costs_raise A e k : costs k (@raise A e).
Proof. intro s. simpl. lia. Qed.

Lemma costs_remote A (service : nat -> A) : costs 1 (remote service).
Proof. intro s. simpl. lia. Qed.

Lemma costs_bind A B (c : M A) (f : A -> M B) j k :
  costs j c -> (forall a, costs k (f a)) -> costs (j + k) (bind c f).
Proof.
  intros Hc Hf s. unfold bind. specialize (Hc s).
  destruct (c s) as [[a | e] s1]; simpl in *.
  - specialize (Hf a s1). lia.
  - lia.
Qed.

Lemma costs_evaluate p t : costs 2 (evaluate env p t).
Proof.
  unfold evaluate. apply (costs_bind _ _ _ _ 1 1).
  - unfold call_voice_assistant.
    apply (costs_bind _ _ _ _ 1 0); [apply costs_remote |].
    intros [[text | name arguments] |]; try apply costs_ret.
    destruct (json_loads env arguments); [apply costs_ret | apply costs_raise].
  - intro r. apply (costs_bind _ _ _ _ 1 0); [ | intro; apply costs_ret].
    intro s. rewrite get_expected_function_run. simpl. lia.
Qed.

Lemma costs_evaluate_all p suite :
  costs (2 * List.length suite) (evaluate_all env p suite).
Proof.
  induction suite as [| t rest IH]; simpl; [apply costs_ret |].
  replace (S (List.length rest + S (List.length rest + 0)))
    with (2 + (2 * List.length rest + 0))%nat by lia.
  apply costs_bind; [apply costs_evaluate | intro].
  apply costs_bind; [exact IH | intro; apply costs_ret].
Qed.

Lemma costs_run_iteration p suite it :
  costs (2 * List.length suite) (run_iteration env cfg p suite it).
Proof.
  unfold run_iteration.
  replace (2 * List.length suite)%nat
    with (2 * List.length suite + (0 + 0))%nat by lia.
  apply costs_bind; [apply costs_evaluate_all | intro results].
  apply costs_bind; [ | intro; apply costs_ret].
  destruct (0 <? _)%nat; [ | apply costs_ret].
  unfold true_div. destruct (List.length results);
    [apply costs_raise | apply costs_ret].
Qed.

Lemma costs_next_prompt m it p : costs 2 (next_prompt env cfg m it p).
Proof.
  unfold next_prompt. destruct (it <? _); [ | apply costs_ret].
  apply (costs_bind _ _ _ _ 1 1).
  - destruct (_ && _); [ | apply costs_ret].
    unfold research_optimization_strategies.
    destruct (negb _); [apply costs_ret |].
    apply (costs_bind _ _ _ _ 1 0); [apply costs_remote |].
    intros [t |]; [destruct (truthy t) | ]; apply costs_ret.
  - intros i s. rewrite optimize_prompt_run. simpl. lia.
Qed.

Lemma costs_decide m it p : costs 2 (decide env cfg m it p).
Proof.
  unfold decide. apply (costs_bind _ _ _ _ 0 2).
  - intro s. rewrite check_stopping_run. simpl. lia.
  - intros [why |]; [apply costs_ret |].
    apply (costs_bind _ _ _ _ 2 0);
      [apply costs_next_prompt | intro; apply costs_ret].
Qed.

Lemma costs_for_iterations suite its : forall p,
  costs (List.length its * (2 * List.length suite + 2))
        (for_iterations env cfg suite its p).
Proof.
  induction its as [| it rest IH]; intros p s; [simpl; lia |].
  rewrite for_iterations_cons.
  pose proof (costs_run_iteration p suite it s) as Hr.
  destruct (run_iteration env cfg p suite it s) as [[m | e] s1];
    simpl in Hr; [ | simpl; lia].
  pose proof (costs_decide m it p (after_tracking p m s1)) as Hd.
  destruct (decide env cfg m it p (after_tracking p m s1))
    as [[[why | next] | e] s2]; simpl in Hd; try (simpl; lia).
  specialize (IH next s2). cbn [List.length]. lia.
Qed.

End RemoteCalls.

(** ** Ranges *)

Lemma firstn_of_seq k : forall a len,
  (k <= len)%nat -> firstn k (seq a len) = seq a k.
Proof.
  induction k as [| k IH]; intros a len Hk; [reflexivity |].
  destruct len as [| len]; [lia |].
  simpl. rewrite IH by lia. reflexivity.
Qed.

Lemma firstn_py_range lo hi k :
  (k <= Z.to_nat (hi - lo))%nat ->
  firstn k (py_range lo hi) = py_range lo (lo + Z.of_nat k).
Proof.
  intro Hk. unfold py_range.
  rewrite firstn_map, firstn_of_seq by exact Hk.
  replace (Z.to_nat (lo + Z.of_nat k - lo)) with k by lia.
  reflexivity.
Qed.

Lemma optimize_run env cfg s :
  fst (optimize env cfg s)
  = match optimization_loop env cfg s with
    | (Ok _, s') => Ok (best_prompt s', best_score s', metrics_history s')
    | (Raise e, _) => Raise e
    end.
Proof.
  unfold optimize, bind at 1.
  destruct (optimization_loop env cfg s) as [[why | e] s']; reflexivity.
Qed.

(** ** The next prompt, exactly *)

Lemma next_prompt_exact env cfg m it p s :
  next_prompt env cfg m it p s
  = if it <? MAX_ITERATIONS cfg then
      (Ok match chat_completion env (rewrite_call_number cfg it (calls s))
                  (rewrite_messages cfg p m
                     (pass_insights env cfg it m (calls s))) with
          | Some text => strip text
          | None => p
          end,
       ticks (S (rewrite_call_number cfg it 0)) s)
    else (Ok p, s).
Proof.
  unfold next_prompt, rewrite_call_number, pass_insights.
  destruct (it <? MAX_ITERATIONS cfg); [ | reflexivity].
  unfold bind at 1.
  destruct (USE_PERPLEXITY cfg && (it =? 1)) eqn:E.
  - apply andb_true_iff in E. destruct E as [Eu _].
    unfold research_optimization_strategies. rewrite Eu. cbn [negb].
    unfold bind at 1. unfold remote.
    destruct (research env (calls s) (function_acc m) (overall m)) as [t |];
      [destruct (truthy t) | ]; unfold ret; rewrite optimize_prompt_run;
      reflexivity.
  - unfold ret. rewrite optimize_prompt_run. reflexivity.
Qed.

(** The evaluations counted as correct are those whose two sides are
    equal. *)
Lemma filter_correct_judged results :
  Forall well_judged results ->
  filter correct results
  = filter (fun e => py_eq (actual e) (expected e)) results.
Proof.
  intro H. apply filter_ext_in. intros e He.
  rewrite Forall_forall in H. apply H. exact He.
Qed.

(** * The claims *)

(** ** The test suite *)

(** C6: for every ordered list of seed queries, whatever the gateway
    returns, the suite is built without error and is, seed after seed in the
    given order, the seed's own entry (variation = original) followed by
    the variations kept for it; so the entry of a seed comes before its
    variations and before every entry of a later seed.  With
    [VARIATIONS_PER_QUERY = 1] the suite is exactly the seeds' own entries:
    as many test cases as seeds, each with variation = original. *)
Theorem suite_keeps_every_seed (env : Env) (cfg : Config)
    (queries : list str) (s : Store) :
  exists seeds : list (str * list str),
    fst (generate_test_suite env cfg queries s) = Ok (suite_of seeds)
    /\ map fst seeds = queries
    /\ (forall before q after, queries = before ++ q :: after ->
        exists sb vs sa,
          suite_of seeds
          = sb ++ seed_case q :: map (variation_case q) vs ++ sa
          /\ Forall (fun t => In (original t) before) sb
          /\ Forall (fun t => In (original t) after) sa)
    /\ (VARIATIONS_PER_QUERY cfg = 1 ->
        suite_of seeds = map seed_case queries
        /\ List.length (suite_of seeds) = List.length queries
        /\ Forall (fun t => variation t = original t) (suite_of seeds)).
Proof.
  exists (seeds_with_extras env (VARIATIONS_PER_QUERY cfg) (calls s) queries).
  rewrite generate_test_suite_run.
  pose proof (seeds_with_extras_seeds env (VARIATIONS_PER_QUERY cfg) queries
                                      (calls s)) as Hseeds.
  split; [reflexivity |]. split; [exact Hseeds |]. split.
  - intros before q after Hq. apply suite_of_split. congruence.
  - intro Hk. rewrite Hk in *.
    assert (Hs : suite_of (seeds_with_extras env 1 (calls s) queries)
                 = map seed_case queries).
    { rewrite suite_of_no_extras by apply seeds_with_extras_one.
      rewrite Hseeds. reflexivity. }
    rewrite Hs. split; [reflexivity |]. split; [apply length_map |].
    apply Forall_forall. intros t Ht. apply in_map_iff in Ht.
    destruct Ht as (q & <- & _). reflexivity.
Qed.

(** With one entry per seed, the scripted backend's three rewordings are
    all dropped: 200 seeds give 200 test cases. *)
Lemma suite_keeps_every_seed_witness :
  exists seeds : list (str * list str),
    fst (generate_test_suite scripted_env plateau_cfg
           (TEST_QUERIES plateau_cfg) (init_store plateau_cfg))
    = Ok (suite_of seeds)
    /\ suite_of seeds = map seed_case (TEST_QUERIES plateau_cfg)
    /\ List.length (suite_of seeds) = 200%nat.
Proof.
  destruct (suite_keeps_every_seed scripted_env plateau_cfg
              (TEST_QUERIES plateau_cfg) (init_store plateau_cfg))
    as (seeds & Hrun & _ & _ & Hone).
  destruct (Hone eq_refl) as (Hs & Hl & _).
  exists seeds. split; [exact Hrun |]. split; [exact Hs |].
  rewrite Hl. reflexivity.
Defined.

(** C10: for every seed list and every [VARIATIONS_PER_QUERY = k >= 1],
    each seed contributes its own entry and at most [k - 1] variations, the
    first [k - 1] of the lines the gateway returned (the others are
    dropped), so the suite has at most (number of seeds) * k test cases. *)
Theorem suite_size_bounded (env : Env) (cfg : Config) (queries : list str)
    (s : Store) (k : Z) :
  VARIATIONS_PER_QUERY cfg = k -> 1 <= k ->
  exists seeds : list (str * list str),
    fst (generate_test_suite env cfg queries s) = Ok (suite_of seeds)
    /\ seeds = seeds_with_extras env k (calls s) queries
    /\ (forall q n content,
          chat_completion env n (variations_messages q k) = Some content ->
          extras_for env k q n
          = firstn (Z.to_nat (k - 1)) (kept_lines content))
    /\ Forall (fun sv => Z.of_nat (List.length (snd sv)) <= k - 1) seeds
    /\ Z.of_nat (List.length (suite_of seeds))
       <= Z.of_nat (List.length queries) * k.
Proof.
  intros Hcfg Hk.
  exists (seeds_with_extras env k (calls s) queries).
  rewrite generate_test_suite_run, Hcfg.
  pose proof (seeds_with_extras_bound env k queries (calls s) Hk) as Hb.
  split; [reflexivity |]. split; [reflexivity |]. split; [ | split].
  - intros q n content Hc. unfold extras_for, slice_to. rewrite Hc.
    destruct (0 <=? k - 1) eqn:E; [reflexivity | lia].
  - exact Hb.
  - pose proof (suite_of_length_bound k _ ltac:(lia) Hb) as H.
    rewrite <- (seeds_with_extras_seeds env k queries (calls s)) at 2.
    rewrite length_map. exact H.
Qed.

(** Three entries asked for each of two seeds: the backend returns three
    rewordings, two are kept, and the suite has six test cases. *)
Lemma suite_size_bounded_witness :
  exists seeds : list (str * list str),
    fst (generate_test_suite scripted_env small_cfg (TEST_QUERIES small_cfg)
           (init_store small_cfg))
    = Ok (suite_of seeds)
    /\ map (fun sv => List.length (snd sv)) seeds = [2%nat; 2%nat]
    /\ List.length (suite_of seeds) = 6%nat.
Proof.
  destruct (suite_size_bounded scripted_env small_cfg (TEST_QUERIES small_cfg)
              (init_store small_cfg) 3 eq_refl ltac:(lia))
    as (seeds & Hrun & Hseeds & _).
  exists seeds. split; [exact Hrun |]. rewrite Hseeds.
  split; reflexivity.
Defined.

(** ** Scoring *)



(** C2: in every Metrics recorded by a run, the [correct] field of every
    Evaluation is the comparison [actual == expected]: true exactly when
    the assistant called a function whose name is the expected string.  An
    absent function ([None]) equals no string, so the comparison is plain
    value equality there too: the verdict is false, also against the
    sentinel. *)
Theorem correct_is_comparison (env : Env) (cfg : Config)
    (r : Result Exit) (s' : Store) :
  optimization_loop env cfg (init_store cfg) = (r, s') ->
  Forall (fun m =>
            Forall (fun e =>
                      correct e = py_eq (actual e) (expected e)
                      /\ (correct e = true <-> actual e = Some (expected e))
                      /\ (actual e = None -> correct e = false))
                   (evaluations m))
         (metrics_history s').
Proof.
  intro Hrun.
  destruct (optimization_loop_spec env cfg) as (suite & _ & Hp & _).
  rewrite Hrun in Hp. simpl in Hp.
  eapply Forall_impl; [ | exact Hp].
  intros m (p & it & s0 & s1 & Hm).
  apply run_iteration_well_judged in Hm. destruct Hm as [Hj _].
  eapply Forall_impl; [ | exact Hj].
  intros e He. unfold well_judged in He. rewrite He.
  split; [reflexivity |]. split; [apply py_eq_true |].
  intros ->. reflexivity.
Qed.

(** The plateau run: three iterations of 200 evaluations each, with 100,
    140 and 141 of them correct. *)
Lemma correct_is_comparison_witness :
  let out :=
    optimization_loop scripted_env plateau_cfg (init_store plateau_cfg) in
  Forall (fun m =>
            Forall (fun e => correct e = py_eq (actual e) (expected e))
                   (evaluations m))
         (metrics_history (snd out))
  /\ map (fun m => (List.length (evaluations m), n_correct m))
         (metrics_history (snd out))
     = [(200, 100); (200, 140); (200, 141)]%nat.
Proof.
  cbn zeta. split; [ | vm_compute; reflexivity].
  eapply Forall_impl;
    [ | apply (correct_is_comparison scripted_env plateau_cfg
                 (fst (optimization_loop scripted_env plateau_cfg
                         (init_store plateau_cfg)))
                 (snd (optimization_loop scripted_env plateau_cfg
                         (init_store plateau_cfg))));
        apply surjective_pairing].
  intros m Hm. eapply Forall_impl; [ | exact Hm].
  intros e (He & _). exact He.
Defined.

(** C9, as the code has it: an iteration over an empty suite raises
    nothing, although the division of the two counts would: the test on
    [total] skips it.  The accuracy is 0, the overall score is computed
    from it as usual and, for a finite [FUNCTION_WEIGHT], has the value of
    [0.8 * PARAMETER_WEIGHT]. *)
Theorem empty_suite_is_guarded (env : Env) (cfg : Config)
    (prompt : str) (it : Z) (s : Store) :
  exists m,
    run_iteration env cfg prompt [] it s = (Ok m, s)
    /\ fst (true_div 0 0 s) = Raise ZeroDivisionError
    /\ total m = 0%nat
    /\ n_correct m = 0%nat
    /\ evaluations m = []
    /\ function_acc m = 0%float
    /\ overall m
       = (0 * FUNCTION_WEIGHT cfg + 0.8 * PARAMETER_WEIGHT cfg)%float
    /\ (PrimFloat.is_finite (FUNCTION_WEIGHT cfg) = true ->
        same_value (overall m) (0.8 * PARAMETER_WEIGHT cfg)%float).
Proof.
  eexists. split; [reflexivity |].
  repeat split. simpl. apply zero_weight_term.
Qed.

(** Weights 0.7 and 0.7: the overall score of an empty iteration is
    0.8 * 0.7. *)
Lemma empty_suite_is_guarded_witness :
  exists m,
    run_iteration scripted_env small_cfg (INITIAL_PROMPT small_cfg) [] 1
                  (init_store small_cfg)
    = (Ok m, init_store small_cfg)
    /\ function_acc m = 0%float
    /\ same_value (overall m) (0.8 * 0.7)%float.
Proof.
  destruct (empty_suite_is_guarded scripted_env small_cfg
              (INITIAL_PROMPT small_cfg) 1 (init_store small_cfg))
    as (m & Hrun & _ & _ & _ & _ & Hacc & _ & Hval).
  exists m. split; [exact Hrun |]. split; [exact Hacc |].
  apply Hval. reflexivity.
Defined.

(** C9, as it is stated, fails for an infinite [FUNCTION_WEIGHT]: the
    product of the accuracy 0 with it is not a number, and neither is the
    overall score, which is then not [0.8 * PARAMETER_WEIGHT]. *)
Lemma empty_suite_infinite_weight :
  exists m,
    run_iteration silent_env infinite_weight_cfg
                  (INITIAL_PROMPT infinite_weight_cfg) [] 1
                  (init_store infinite_weight_cfg)
    = (Ok m, init_store infinite_weight_cfg)
    /\ function_acc m = 0%float
    /\ PrimFloat.is_nan (overall m) = true
    /\ PrimFloat.eqb (overall m)
                     (0.8 * PARAMETER_WEIGHT infinite_weight_cfg)%float
       = false
    /\ ~ same_value (overall m)
                    (0.8 * PARAMETER_WEIGHT infinite_weight_cfg)%float.
Proof.
  eexists. split; [reflexivity |].
  split; [reflexivity |]. split; [reflexivity |]. split; [reflexivity |].
  intros [H | H]; vm_compute in H; discriminate H.
Qed.

(** ** The rewriter *)



(** ** Failures of the two probes *)

(** C8, as the code has it: when the call of the expected-function probe
    fails the expected value is the string "unknown"; when the assistant
    called no function its side is [None], which equals no string, so an
    evaluation where both failed is recorded as incorrect. *)
Theorem failed_probes_do_not_match (env : Env) (prompt : str)
    (test : TestCase) (s : Store) :
  (forall name arguments,
     chat_completion_with_tools env (calls s)
       (assistant_messages (variation test) prompt)
     <> Some (FunctionCall name arguments)) ->
  chat_completion env (S (calls s)) (expected_messages (variation test))
  = None ->
  get_expected_function env (variation test) (tick s)
  = (Ok (lit "unknown"), tick (tick s))
  /\ evaluate env prompt test s
     = (Ok {| query := variation test;
              expected := lit "unknown";
              actual := None;
              correct := false |},
        tick (tick s))
  /\ py_eq None (lit "unknown") = false.
Proof.
  intros Hno Hfail. split; [ | split; [ | reflexivity]].
  - rewrite get_expected_function_run. simpl. rewrite Hfail. reflexivity.
  - unfold evaluate, bind at 1, call_voice_assistant, bind at 1, remote.
    destruct (chat_completion_with_tools env (calls s)
                (assistant_messages (variation test) prompt))
      as [[text | name arguments] |] eqn:E.
    + unfold ret, bind. cbn [cr_query cr_function].
      rewrite get_expected_function_run. simpl. rewrite Hfail. reflexivity.
    + exfalso. eapply Hno. reflexivity.
    + unfold ret, bind. cbn [cr_query cr_function].
      rewrite get_expected_function_run. simpl. rewrite Hfail. reflexivity.
Qed.

Lemma failed_probes_do_not_match_witness :
  evaluate silent_env (INITIAL_PROMPT plateau_cfg) password_case
           (init_store plateau_cfg)
  = (Ok {| query := lit "How do I reset my password?";
           expected := lit "unknown";
           actual := None;
           correct := false |},
     tick (tick (init_store plateau_cfg))).
Proof.
  apply (failed_probes_do_not_match silent_env (INITIAL_PROMPT plateau_cfg)
           password_case (init_store plateau_cfg)).
  - intros name arguments. discriminate.
  - reflexivity.
Defined.

(** C8, as it is stated, fails with the services down: the expected side is
    "unknown", the actual side is absent, and the two do not compare
    equal. *)
Lemma failed_probes_compare_unequal :
  exists e s',
    evaluate silent_env (INITIAL_PROMPT plateau_cfg) password_case
             (init_store plateau_cfg) = (Ok e, s')
    /\ expected e = lit "unknown"
    /\ actual e = None
    /\ py_eq (actual e) (expected e) = false
    /\ correct e <> true.
Proof.
  eexists. eexists. split; [vm_compute; reflexivity |].
  repeat split. discriminate.
Qed.

(** ** Tracking the best prompt *)

(** C3: a pass of the loop appends its metrics and changes the best score
    only when the overall score of the pass is strictly greater; the best
    score is then that score and the best prompt the prompt the pass
    evaluated, whatever prompt the rewriter returns for the next pass.  The
    best score never decreases in a pass, and over the history of a run it
    is, after every number of iterations, the running maximum of the
    overall scores recorded so far, which never decreases either. *)
Theorem best_score_tracking (env : Env) (cfg : Config) :
  (forall suite it p s m s1,
     run_iteration env cfg p suite it s = (Ok m, s1) ->
     ordered (best_score s) ->
     let s' := snd (loop_body env cfg suite it p s) in
     metrics_history s' = metrics_history s ++ [m]
     /\ (fgt (overall m) (best_score s) = true ->
         best_score s' = overall m /\ best_prompt s' = p)
     /\ (fgt (overall m) (best_score s) = false ->
         best_score s' = best_score s /\ best_prompt s' = best_prompt s)
     /\ PrimFloat.leb (best_score s) (best_score s') = true
     /\ ordered (best_score s'))
  /\ (forall r s',
        optimization_loop env cfg (init_store cfg) = (r, s') ->
        best_score s' = best_after 0%float (metrics_history s')
        /\ forall j k, (j <= k)%nat ->
             PrimFloat.leb
               (best_after 0%float (firstn j (metrics_history s')))
               (best_after 0%float (firstn k (metrics_history s')))
             = true).
Proof.
  split.
  - intros suite it p s m s1 Hrun Hb. cbn zeta.
    destruct (loop_body_tracked env cfg suite it p s m s1 Hrun) as [Hh Ht].
    split; [exact Hh |].
    destruct (fgt (overall m) (best_score s)) eqn:E;
      destruct Ht as [Hs Hp]; rewrite Hs.
    + repeat split; try assumption; try discriminate.
      * apply fgt_leb. exact E.
      * eapply fgt_ordered. exact E.
    + repeat split; try assumption; discriminate.
  - intros r s' Hrun.
    destruct (optimization_loop_spec env cfg) as (suite & _ & _ & _ & Hb & _).
    rewrite Hrun in Hb. simpl in Hb. split; [exact Hb |].
    intros j k Hjk. apply best_after_prefixes; [apply ordered_zero | exact Hjk].
Qed.

(** A first pass that sets the best score to 0.7 and the best prompt to the
    initial prompt while the loop goes on with a rewritten prompt; the
    second iteration scores 0.2 and the best prompt is still the initial
    one at the end of the run. *)
Lemma best_score_tracking_witness :
  let p := INITIAL_PROMPT fading_cfg in
  let s := ticks 2 (init_store fading_cfg) in
  let pass := loop_body fading_env fading_cfg fading_suite 1 p s in
  let out := optimization_loop fading_env fading_cfg (init_store fading_cfg) in
  (fst pass = Ok (Next (lit "You are a voice assistant. Be precise."))
   /\ best_score (snd pass) = 0.7%float
   /\ best_prompt (snd pass) = p)
  /\ (map overall (metrics_history (snd out)) = [0.7; 0.2]%float
      /\ best_score (snd out) = 0.7%float
      /\ best_prompt (snd out) = p
      /\ best_score (snd out) = best_after 0%float (metrics_history (snd out))).
Proof.
  cbn zeta.
  destruct (best_score_tracking fading_env fading_cfg) as [Hpass Hrun].
  split.
  - split; [vm_compute; reflexivity |].
    destruct (run_iteration fading_env fading_cfg (INITIAL_PROMPT fading_cfg)
                fading_suite 1 (ticks 2 (init_store fading_cfg)))
      as [[m | e] s1] eqn:Hm; [ | vm_compute in Hm; discriminate Hm].
    destruct (Hpass fading_suite 1 (INITIAL_PROMPT fading_cfg)
                (ticks 2 (init_store fading_cfg)) m s1 Hm
                ltac:(reflexivity))
      as (_ & Hup & _).
    vm_compute in Hm. inversion Hm; subst m.
    destruct (Hup ltac:(vm_compute; reflexivity)) as [Hs Hp].
    split; [rewrite Hs; vm_compute; reflexivity | exact Hp].
  - destruct (Hrun _ _ (surjective_pairing _)) as [Hb _].
    split; [vm_compute; reflexivity |].
    split; [vm_compute; reflexivity |].
    split; [vm_compute; reflexivity | exact Hb].
Defined.

(** ** The stopping rule *)

(** C4: after an iteration the loop first compares the overall score with
    [TARGET_ACCURACY] and leaves with "target reached" when it is at least
    that, whatever the other tests would say; otherwise, in an iteration
    after the first, it leaves as a plateau when the score minus the
    previous iteration's is strictly below [MIN_IMPROVEMENT]; otherwise the
    pass ends with a next prompt, and the loop goes to the next iteration
    number, or ends as budget exhaustion when the range, whose last number
    is [MAX_ITERATIONS], has none left.  With [MIN_IMPROVEMENT = 0.02], a
    second iteration at 0.70 and a third at 0.705 below the target, the
    third pass leaves as a plateau. *)
Theorem stopping_rule_order (env : Env) (cfg : Config)
    (suite : list TestCase) (it : Z) (p : str) (s : Store)
    (m : Metrics) (s1 : Store) :
  run_iteration env cfg p suite it s = (Ok m, s1) ->
  let pass := loop_body env cfg suite it p s in
  (fge (overall m) (TARGET_ACCURACY cfg) = true ->
   fst pass = Ok (Break TargetReached))
  /\ (forall h prev,
        fge (overall m) (TARGET_ACCURACY cfg) = false ->
        1 < it ->
        metrics_history s = h ++ [prev] ->
        flt (overall m - overall prev)%float (MIN_IMPROVEMENT cfg) = true ->
        fst pass = Ok (Break Plateau))
  /\ (fge (overall m) (TARGET_ACCURACY cfg) = false ->
      (it <= 1
       \/ exists h prev,
            metrics_history s = h ++ [prev]
            /\ flt (overall m - overall prev)%float (MIN_IMPROVEMENT cfg)
               = false) ->
      exists next,
        fst pass = Ok (Next next)
        /\ for_iterations env cfg suite [it] p s
           = (Ok BudgetExhausted, snd pass)
        /\ forall it' rest,
             for_iterations env cfg suite (it :: it' :: rest) p s
             = for_iterations env cfg suite (it' :: rest) next (snd pass))
  /\ (1 <= MAX_ITERATIONS cfg ->
      exists its,
        py_range 1 (MAX_ITERATIONS cfg + 1) = its ++ [MAX_ITERATIONS cfg])
  /\ (forall h prev,
        MIN_IMPROVEMENT cfg = 0.02%float ->
        it = 3 ->
        metrics_history s = h ++ [prev] ->
        overall prev = 0.70%float ->
        overall m = 0.705%float ->
        fge 0.705 (TARGET_ACCURACY cfg) = false ->
        fst pass = Ok (Break Plateau)).
Proof.
  intro Hrun. cbn zeta.
  pose proof (quiet_run_iteration env cfg p suite it s) as Hq.
  rewrite Hrun in Hq. destruct Hq as (Hh & _). simpl in Hh.
  assert (Hplateau : forall h prev,
            fge (overall m) (TARGET_ACCURACY cfg) = false ->
            1 < it ->
            metrics_history s = h ++ [prev] ->
            flt (overall m - overall prev)%float (MIN_IMPROVEMENT cfg) = true ->
            fst (loop_body env cfg suite it p s) = Ok (Break Plateau)).
  { intros h prev Ht Hit Hprev Hlt.
    rewrite loop_body_run, Hrun.
    erewrite decide_break; [reflexivity |].
    rewrite check_stopping_run, Ht.
    apply Z.ltb_lt in Hit. rewrite Hit.
    rewrite (previous_after_tracking p m s1 h prev) by congruence.
    rewrite Hlt. reflexivity. }
  split; [ | split; [exact Hplateau | split; [ | split]]].
  - intro Ht. rewrite loop_body_run, Hrun.
    erewrite decide_break; [reflexivity |].
    rewrite check_stopping_run, Ht. reflexivity.
  - intros Ht Hgo.
    assert (Hc : check_stopping cfg m it (after_tracking p m s1)
                 = (Ok None, after_tracking p m s1)).
    { rewrite check_stopping_run, Ht.
      destruct Hgo as [Hit | (h & prev & Hprev & Hlt)].
      - apply Z.ltb_ge in Hit. rewrite Hit. reflexivity.
      - destruct (1 <? it); [ | reflexivity].
        rewrite (previous_after_tracking p m s1 h prev) by congruence.
        rewrite Hlt. reflexivity. }
    destruct (decide_next env cfg m it p _ Hc) as (next & s' & Hd).
    exists next. rewrite loop_body_run, Hrun, Hd. split; [reflexivity |].
    split.
    + rewrite for_iterations_cons, Hrun, Hd. reflexivity.
    + intros it' rest. rewrite for_iterations_cons, Hrun, Hd. reflexivity.
  - intro Hmax. unfold py_range.
    replace (MAX_ITERATIONS cfg + 1 - 1) with (MAX_ITERATIONS cfg) by lia.
    replace (Z.to_nat (MAX_ITERATIONS cfg))
      with (Z.to_nat (MAX_ITERATIONS cfg - 1) + 1)%nat by lia.
    rewrite seq_app, map_app. eexists. f_equal.
    cbn [seq map]. f_equal. lia.
  - intros h prev Hmin Hit Hprev Ho2 Ho3 Ht.
    apply (Hplateau h prev); [congruence | lia | exact Hprev |].
    rewrite Hmin, Ho2, Ho3. vm_compute. reflexivity.
Qed.

(** The plateau run: 0.5, then 0.70, then 0.705 against a target of 0.9;
    the third pass, and with it the run, ends as a plateau after three
    iterations. *)
Lemma stopping_rule_order_witness :
  let s := plateau_store_after_two in
  let out :=
    optimization_loop scripted_env plateau_cfg (init_store plateau_cfg) in
  map overall (metrics_history s) = [0.5; 0.70]%float
  /\ fst (loop_body scripted_env plateau_cfg plateau_suite 3
            plateau_third_prompt s)
     = Ok (Break Plateau)
  /\ fst out = Ok Plateau
  /\ map overall (metrics_history (snd out)) = [0.5; 0.70; 0.705]%float.
Proof.
  cbn zeta. split; [vm_compute; reflexivity |].
  split; [ | split; vm_compute; reflexivity].
  destruct (run_iteration scripted_env plateau_cfg plateau_third_prompt
              plateau_suite 3 plateau_store_after_two)
    as [[m | e] s1] eqn:Hm; [ | vm_compute in Hm; discriminate Hm].
  destruct (stopping_rule_order scripted_env plateau_cfg plateau_suite 3
              plateau_third_prompt plateau_store_after_two m s1 Hm)
    as (_ & _ & _ & _ & Hscenario).
  vm_compute in Hm. inversion Hm; subst m.
  apply (Hscenario (firstn 1 (metrics_history plateau_store_after_two))
           (nth 1 (metrics_history plateau_store_after_two)
                {| iteration := 0; overall := 0; function_acc := 0;
                   n_correct := 0; total := 0; evaluations := [] |}));
    vm_compute; reflexivity.
Defined.

(** ** Termination *)

(** C5: with [MAX_ITERATIONS = n >= 1] the loop of a fresh optimizer, a
    recursion over the [n] numbers of its range, records at most [n]
    iterations, numbered 1, 2, ... in the history, and makes a bounded
    number of remote calls.  It ends by one of its two [break]s or, when
    neither is ever taken, with the range exhausted after exactly [n]
    iterations; the one error that can interrupt it is that of
    [json.loads] on the arguments of a function call, and [optimize]
    returns the best prompt, the best score and the history otherwise. *)
Theorem loop_stops_within_budget (env : Env) (cfg : Config) (n : Z) :
  MAX_ITERATIONS cfg = n -> 1 <= n ->
  let out := optimization_loop env cfg (init_store cfg) in
  let history := metrics_history (snd out) in
  exists suite,
    fst (generate_test_suite env cfg (TEST_QUERIES cfg) (init_store cfg))
    = Ok suite
    /\ (List.length history <= Z.to_nat n)%nat
    /\ map iteration history = py_range 1 (1 + Z.of_nat (List.length history))
    /\ (fst out = Ok BudgetExhausted -> List.length history = Z.to_nat n)
    /\ match fst out with
       | Ok _ =>
           fst (optimize env cfg (init_store cfg))
           = Ok (best_prompt (snd out), best_score (snd out), history)
       | Raise e => e = JSONDecodeError /\ exists t, json_loads env t = None
       end
    /\ (calls (snd out)
        <= List.length (TEST_QUERIES cfg)
           + Z.to_nat n * (2 * List.length suite + 2))%nat.
Proof.
  intros Hn Hpos. cbn zeta.
  rewrite optimize_run, optimization_loop_run, generate_test_suite_run, Hn.
  set (suite := suite_of _).
  set (s0 := ticks (List.length (TEST_QUERIES cfg)) (init_store cfg)).
  exists suite. split; [reflexivity |].
  destruct (for_iterations_spec env cfg suite (py_range 1 (n + 1))
              (INITIAL_PROMPT cfg) s0)
    as (new & Hh & Hl & _ & _ & He & Hnum).
  rewrite py_range_length in Hl, He.
  replace (n + 1 - 1) with n in Hl, He by lia.
  simpl in Hh. rewrite Hh.
  split; [exact Hl |]. split; [ | split; [exact He | split]].
  - rewrite Hnum. apply firstn_py_range. lia.
  - pose proof (for_iterations_fresh env cfg suite (Z.to_nat n) 0
                  (INITIAL_PROMPT cfg) s0 eq_refl) as Hf.
    unfold py_range. replace (n + 1 - 1) with n by lia.
    destruct (for_iterations env cfg suite
                (map (fun k => 1 + Z.of_nat k) (seq 0 (Z.to_nat n)))
                (INITIAL_PROMPT cfg) s0) as [[why | e] s'] eqn:E.
    + simpl. unfold py_range in Hh.
      replace (n + 1 - 1) with n in Hh by lia. rewrite E in Hh.
      simpl in Hh. rewrite Hh. reflexivity.
    + exact Hf.
  - pose proof (costs_for_iterations env cfg suite (py_range 1 (n + 1))
                  (INITIAL_PROMPT cfg) s0) as Hc.
    rewrite py_range_length in Hc.
    replace (n + 1 - 1) with n in Hc by lia.
    simpl in Hc. lia.
Qed.

(** The fading run, with a budget of five iterations: it stops after two,
    and [optimize] returns the initial prompt with its score of 0.7. *)
Lemma loop_stops_within_budget_witness :
  let out := optimization_loop fading_env fading_cfg (init_store fading_cfg) in
  (List.length (metrics_history (snd out)) <= 5)%nat
  /\ map iteration (metrics_history (snd out)) = [1; 2]
  /\ (calls (snd out) <= 2 + 5 * (2 * 2 + 2))%nat
  /\ match fst (optimize fading_env fading_cfg (init_store fading_cfg)) with
     | Ok (p, b, h) =>
         p = INITIAL_PROMPT fading_cfg /\ b = 0.7%float
         /\ List.length h = 2%nat
     | Raise _ => False
     end.
Proof.
  cbn zeta.
  destruct (loop_stops_within_budget fading_env fading_cfg 5 eq_refl
              ltac:(lia))
    as (suite & Hsuite & Hlen & Hnum & _ & _ & Hcalls).
  split; [exact Hlen |].
  split; [rewrite Hnum; vm_compute; reflexivity |].
  split; [ | vm_compute; repeat split].
  vm_compute in Hsuite. inversion Hsuite; subst suite. exact Hcalls.
Defined.

(** * Further properties of the code *)

(** ** The Claude client *)

Lemma split_system_snoc system messages msg :
  split_system system (messages ++ [msg])
  = if is_system msg
    then (Some (msg_content msg), snd (split_system system messages))
    else (fst (split_system system messages),
          snd (split_system system messages) ++ [msg]).
Proof.
  unfold split_system. rewrite fold_left_app. cbn [fold_left].
  unfold is_system. destruct (Str.eqb (msg_role msg) (lit "system"));
    [reflexivity |].
  destruct msg. reflexivity.
Qed.

(** X1: the loop over the messages of the Claude client hands on every
    turn that is not a system turn, in the order given, and as system
    prompt the content of the last system turn; without a system turn the
    system prompt is the one passed in.  No system turn reaches the
    [messages] of the request. *)
Theorem system_turn_last_wins (system : option str)
    (messages : list ChatMessage) :
  snd (split_system system messages)
  = filter (fun m => negb (is_system m)) messages
  /\ fst (split_system system messages)
     = match find is_system (rev messages) with
       | Some m => Some (msg_content m)
       | None => system
       end
  /\ Forall (fun m => is_system m = false) (snd (split_system system messages)).
Proof.
  assert (H : snd (split_system system messages)
              = filter (fun m => negb (is_system m)) messages
              /\ fst (split_system system messages)
                 = match find is_system (rev messages) with
                   | Some m => Some (msg_content m)
                   | None => system
                   end).
  { induction messages as [| msg messages [IHs IHf]] using rev_ind.
    - split; reflexivity.
    - rewrite split_system_snoc, rev_app_distr, filter_app. cbn [rev app find filter].
      destruct (is_system msg); cbn [fst snd negb].
      + rewrite IHs, app_nil_r. split; reflexivity.
      + rewrite IHs, IHf. split; reflexivity. }
  destruct H as [Hs Hf]. split; [exact Hs |]. split; [exact Hf |].
  rewrite Hs. apply Forall_forall. intros m Hm.
  apply filter_In in Hm. destruct Hm as [_ Hm].
  apply negb_true_iff. exact Hm.
Qed.

Lemma find_first A (f : A -> bool) pre x post :
  Forall (fun b => f b = false) pre -> f x = true ->
  find f (pre ++ x :: post) = Some x.
Proof.
  induction 1 as [| b pre Hb _ IH]; intro Hx; simpl.
  - rewrite Hx. reflexivity.
  - rewrite Hb. apply IH. exact Hx.
Qed.

(** X2: through the Claude client, when the response stops for a tool use,
    the assistant call records the first tool_use block of the response:
    its name as the function and, [json.loads] undoing [json.dumps], its
    input as the parameters; text blocks before it and tool calls after it
    are ignored. *)
Theorem claude_first_tool_call (c : ClaudeClient) (json_dumps : Json -> str)
    (render : Request -> list ChatMessage) (tools : list FunctionSpec)
    (env : Env) (q p : str) (s : Store) (response : ClaudeResponse)
    (pre post : list ContentBlock) (name : str) (input : Json) :
  json_loads env (json_dumps input) = Some input ->
  messages_create c (calls s) (assistant_request c render tools q p)
  = Some response ->
  stop_reason response = lit "tool_use" ->
  response_content response = pre ++ ToolUseBlock name input :: post ->
  Forall (fun b => is_tool_use b = false) pre ->
  call_voice_assistant (claude_assistant_env c json_dumps render tools env)
                       q p s
  = (Ok {| cr_query := q; cr_function := Some name;
           cr_params := input; cr_success := true |},
     tick s).
Proof.
  intros Hround Hresp Hstop Hcontent Hpre.
  unfold call_voice_assistant, bind, remote.
  cbn [chat_completion_with_tools claude_assistant_env json_loads].
  unfold claude_chat_completion_with_tools.
  unfold assistant_request in Hresp.
  cbn [temperature max_tokens assistant_messages] in *.
  rewrite Hresp, Hstop, Hcontent.
  change (Str.eqb (lit "tool_use") (lit "tool_use")) with true. cbv iota.
  rewrite (find_first _ is_tool_use pre (ToolUseBlock name input) post Hpre
             eq_refl).
  rewrite Hround. reflexivity.
Qed.

(** The stub client answers with some text, a call of [answer_question]
    and a call of [escalate_to_human]: the first call is recorded. *)
Lemma claude_first_tool_call_witness :
  call_voice_assistant
    (claude_assistant_env stub_client stub_dumps assistant_turns stub_tools
                          stub_env)
    (lit "What time is it?") (INITIAL_PROMPT small_cfg) (init_store small_cfg)
  = (Ok {| cr_query := lit "What time is it?";
           cr_function := Some answer_question;
           cr_params := JObject [];
           cr_success := true |},
     tick (init_store small_cfg)).
Proof.
  apply (claude_first_tool_call stub_client stub_dumps assistant_turns
           stub_tools stub_env (lit "What time is it?")
           (INITIAL_PROMPT small_cfg) (init_store small_cfg)
           (tool_response answer_question (JObject []))
           [TextBlock (lit "Let me help.")]
           [ToolUseBlock (lit "escalate_to_human") JNull]);
    try reflexivity.
  repeat constructor.
Defined.

(** ** Runs that raise nothing *)

Section Sure.

Variable env : Env.
Variable cfg : Config.
Hypothesis Hparsable : parsable_calls env.

Lemma sure_ret A (a : A) : sure (ret a).
Proof. intro s. exists a. reflexivity. Qed.

Lemma sure_bind A B (c : M A) (k : A -> M B) :
  sure c -> (forall a, sure (k a)) -> sure (bind c k).
Proof.
  intros Hc Hk s. unfold bind. destruct (Hc s) as [a Ha].
  destruct (c s) as [[a' | e] s1]; simpl in Ha; [ | discriminate Ha].
  apply Hk.
Qed.

Lemma sure_call_voice_assistant q p : sure (call_voice_assistant env q p).
Proof.
  intro s. unfold call_voice_assistant, bind, remote.
  destruct (chat_completion_with_tools env (calls s) (assistant_messages q p))
    as [[text | name arguments] |] eqn:E; try (eexists; reflexivity).
  pose proof (Hparsable _ _ _ _ E) as Hl.
  destruct (json_loads env arguments); [eexists; reflexivity | contradiction].
Qed.

Lemma sure_evaluate p t : sure (evaluate env p t).
Proof.
  unfold evaluate.
  apply sure_bind; [apply sure_call_voice_assistant | intro r].
  apply sure_bind; [ | intro; apply sure_ret].
  intro s. rewrite get_expected_function_run. eexists. reflexivity.
Qed.

Lemma sure_evaluate_all p suite : sure (evaluate_all env p suite).
Proof.
  induction suite as [| t rest IH]; simpl; [apply sure_ret |].
  apply sure_bind; [apply sure_evaluate | intro].
  apply sure_bind; [exact IH | intro; apply sure_ret].
Qed.

Lemma sure_run_iteration p suite it : sure (run_iteration env cfg p suite it).
Proof.
  unfold run_iteration.
  apply sure_bind; [apply sure_evaluate_all | intro results].
  apply sure_bind; [ | intro; apply sure_ret].
  destruct (List.length results) as [| n]; [apply sure_ret |].
  change (0 <? S n)%nat with true. cbv iota. unfold true_div. apply sure_ret.
Qed.

Lemma sure_for_iterations suite len : forall a p s,
  List.length (metrics_history s) = a ->
  exists why,
    fst (for_iterations env cfg suite
           (map (fun k => 1 + Z.of_nat k) (seq a len)) p s) = Ok why.
Proof.
  induction len as [| len IH]; intros a p s Hlen;
    [eexists; reflexivity |].
  cbn [seq map]. rewrite for_iterations_cons.
  destruct (sure_run_iteration p suite (1 + Z.of_nat a) s) as [m Hm].
  pose proof (quiet_run_iteration env cfg p suite (1 + Z.of_nat a) s) as Hq.
  destruct (run_iteration env cfg p suite (1 + Z.of_nat a) s)
    as [[m' | e] s1]; simpl in Hm; [ | discriminate Hm].
  destruct Hq as (Hh & _). simpl in Hh.
  assert (Hlen' : List.length (metrics_history (after_tracking p m' s1)) = S a).
  { simpl. rewrite length_app, Hh, Hlen. simpl. lia. }
  destruct (check_stopping_fresh cfg m' a _ Hlen') as ([why |] & Hc).
  - rewrite (decide_break env cfg m' _ p _ why Hc). eexists. reflexivity.
  - destruct (decide_next env cfg m' _ p _ Hc) as (next & s2 & Hd).
    pose proof (quiet_decide env cfg m' (1 + Z.of_nat a) p
                  (after_tracking p m' s1)) as Hqd.
    rewrite Hd in *. destruct Hqd as (Kh & _). simpl in Kh.
    apply IH. rewrite Kh, length_app, Hh, Hlen. simpl. lia.
Qed.

End Sure.

(** A run of a fresh optimizer returns when every function call has
    arguments that [json.loads] accepts. *)
Lemma fresh_run_returns (env : Env) (cfg : Config) :
  parsable_calls env ->
  let out := optimization_loop env cfg (init_store cfg) in
  exists why,
    fst out = Ok why
    /\ fst (optimize env cfg (init_store cfg))
       = Ok (best_prompt (snd out), best_score (snd out),
             metrics_history (snd out)).
Proof.
  intro Hp. cbn zeta. rewrite optimize_run.
  rewrite optimization_loop_run.
  destruct (sure_for_iterations env cfg Hp
              (suite_of (seeds_with_extras env (VARIATIONS_PER_QUERY cfg)
                           (calls (init_store cfg)) (TEST_QUERIES cfg)))
              (Z.to_nat (MAX_ITERATIONS cfg)) 0 (INITIAL_PROMPT cfg)
              (ticks (List.length (TEST_QUERIES cfg)) (init_store cfg))
              eq_refl) as [why Hwhy].
  unfold py_range.
  replace (MAX_ITERATIONS cfg + 1 - 1) with (MAX_ITERATIONS cfg) by lia.
  destruct (for_iterations _ _ _ _ _ _) as [[w | e] s']; simpl in Hwhy;
    [ | discriminate Hwhy].
  exists w. split; reflexivity.
Qed.





(** ** The configuration check *)

(** X5: [Config.validate] returns exactly when the primary model is
    "CLAUDE" or "OPENAI" and the key of that model is set, and exits with
    code 1 otherwise; a missing research key never makes it exit. *)
Theorem validate_needs_primary_key (c : Settings) :
  (Str.eqb (primary_model c) (lit "CLAUDE") && key_set (ANTHROPIC_API_KEY c)
   || Str.eqb (primary_model c) (lit "OPENAI") && key_set (OPENAI_API_KEY c)
   = true
   -> exists c', validate c = Validated c')
  /\ (Str.eqb (primary_model c) (lit "CLAUDE") && key_set (ANTHROPIC_API_KEY c)
      || Str.eqb (primary_model c) (lit "OPENAI") && key_set (OPENAI_API_KEY c)
      = false
      -> validate c = SystemExit 1).
Proof.
  unfold validate.
  destruct (Str.eqb (primary_model c) (lit "CLAUDE")) eqn:Ec.
  - apply str_eqb_eq in Ec.
    assert (Eo : Str.eqb (primary_model c) (lit "OPENAI") = false)
      by (rewrite Ec; reflexivity).
    rewrite Eo. simpl. rewrite orb_false_r.
    destruct (key_set (ANTHROPIC_API_KEY c)); simpl; split; intro H;
      try discriminate H; try reflexivity.
    destruct (use_perplexity c && _); eexists; reflexivity.
  - simpl.
    destruct (Str.eqb (primary_model c) (lit "OPENAI")); simpl;
      [ | split; intro H; [discriminate H | reflexivity]].
    destruct (key_set (OPENAI_API_KEY c)); simpl; split; intro H;
      try discriminate H; try reflexivity.
    destruct (use_perplexity c && _); eexists; reflexivity.
Qed.

Lemma validate_needs_primary_key_witness :
  (exists c', validate claude_settings = Validated c')
  /\ validate {| ANTHROPIC_API_KEY := None;
                 OPENAI_API_KEY := Some (lit "sk-test");
                 PERPLEXITY_API_KEY := Some (lit "pplx-test");
                 primary_model := lit "CLAUDE";
                 use_perplexity := true |}
     = SystemExit 1.
Proof.
  split.
  - apply (proj1 (validate_needs_primary_key claude_settings)). reflexivity.
  - apply (proj2 (validate_needs_primary_key _)). reflexivity.
Defined.

(** X6: when [Config.validate] returns, research is enabled only if it was
    asked for and its key is set, the keys and the primary model are as
    they were, and a second call changes nothing. *)
Theorem validate_settles_research (c c' : Settings) :
  validate c = Validated c' ->
  use_perplexity c' = use_perplexity c && key_set (PERPLEXITY_API_KEY c)
  /\ ANTHROPIC_API_KEY c' = ANTHROPIC_API_KEY c
  /\ OPENAI_API_KEY c' = OPENAI_API_KEY c
  /\ PERPLEXITY_API_KEY c' = PERPLEXITY_API_KEY c
  /\ primary_model c' = primary_model c
  /\ validate c' = Validated c'.
Proof.
  unfold validate.
  set (checked := if Str.eqb (primary_model c) (lit "CLAUDE") then _ else _).
  destruct checked eqn:Hc; [ | intro H; discriminate H].
  cbn [negb].
  destruct (use_perplexity c) eqn:Hu;
    destruct (key_set (PERPLEXITY_API_KEY c)) eqn:Hk; cbn [andb negb];
    intro H; inversion H; subst c'; cbn [use_perplexity ANTHROPIC_API_KEY
      OPENAI_API_KEY PERPLEXITY_API_KEY primary_model];
    fold checked; rewrite ?Hc, ?Hu, ?Hk; repeat split; destruct c; reflexivity.
Qed.

(** Research asked for with an empty key: it is switched off, once. *)
Lemma validate_settles_research_witness :
  exists c',
    validate claude_settings = Validated c'
    /\ use_perplexity c' = false
    /\ validate c' = Validated c'.
Proof.
  destruct (validate claude_settings) as [code | c'] eqn:H;
    [vm_compute in H; discriminate H |].
  destruct (validate_settles_research claude_settings c' H)
    as (Hu & _ & _ & _ & _ & Hi).
  exists c'. split; [reflexivity |]. split; [exact Hu | exact Hi].
Defined.

(** ** The shape of an iteration *)

Lemma evaluate_shape env p t s e s' :
  evaluate env p t s = (Ok e, s') ->
  query e = variation t /\ calls s' = (2 + calls s)%nat.
Proof.
  unfold evaluate. intro H.
  apply bind_ok in H. destruct H as (r & s1 & Hr & H).
  apply bind_ok in H. destruct H as (x & s2 & Hx & H).
  unfold ret in H. inversion H; subst. cbn [query].
  rewrite get_expected_function_run in Hx. inversion Hx; subst.
  unfold call_voice_assistant, bind, remote in Hr.
  destruct (chat_completion_with_tools env (calls s)
              (assistant_messages (variation t) p))
    as [[text | name arguments] |];
    [ | destruct (json_loads env arguments); [ | discriminate Hr] | ];
    unfold ret in Hr; inversion Hr; subst; split; reflexivity.
Qed.

Lemma evaluate_all_shape env p suite : forall s results s',
  evaluate_all env p suite s = (Ok results, s') ->
  map query results = map variation suite
  /\ calls s' = (2 * List.length suite + calls s)%nat.
Proof.
  induction suite as [| t rest IH]; simpl; intros s results s' H.
  - unfold ret in H. inversion H; subst. split; reflexivity.
  - apply bind_ok in H. destruct H as (e & s1 & He & H).
    apply bind_ok in H. destruct H as (rs & s2 & Hrs & H).
    unfold ret in H. inversion H; subst.
    apply evaluate_shape in He. destruct He as [Hq Hc].
    apply IH in Hrs. destruct Hrs as [Hqs Hcs].
    simpl. rewrite Hq, Hqs, Hcs, Hc. split; [reflexivity | lia].
Qed.

Lemma count_correct_le results :
  (count_correct results <= List.length results)%nat.
Proof. unfold count_correct. apply filter_length_le. Qed.

(** The shape and the cost of an iteration that returns. *)
Lemma run_iteration_shape (env : Env) (cfg : Config) (p : str)
    (suite : list TestCase) (it : Z) (s : Store) (m : Metrics) (s' : Store) :
  run_iteration env cfg p suite it s = (Ok m, s') ->
  map query (evaluations m) = map variation suite
  /\ total m = List.length suite
  /\ (n_correct m <= total m)%nat
  /\ iteration m = it
  /\ calls s' = (2 * List.length suite + calls s)%nat.
Proof.
  intro H. apply run_iteration_ok in H. destruct H as (results & Hev & ->).
  cbn [evaluations total n_correct iteration].
  destruct (evaluate_all_shape env p suite s results s' Hev) as [Hq Hc].
  split; [exact Hq |].
  split; [rewrite <- (length_map query), Hq; apply length_map |].
  split; [apply count_correct_le |].
  split; [reflexivity | exact Hc].
Qed.

(** X7: an iteration that returns has evaluated every test case of the
    suite once and in order, each on its variation (not on its original
    query); its total is the size of the suite, its correct count is at
    most that, it carries its iteration number, and it cost exactly two
    remote calls per test case. *)
Theorem iteration_covers_suite (env : Env) (cfg : Config) (p : str)
    (suite : list TestCase) (it : Z) (s : Store) (m : Metrics) (s' : Store) :
  run_iteration env cfg p suite it s = (Ok m, s') ->
  map query (evaluations m) = map variation suite
  /\ total m = List.length suite
  /\ (n_correct m <= total m)%nat
  /\ iteration m = it
  /\ calls s' = (2 * List.length suite + calls s)%nat.
Proof. apply run_iteration_shape. Qed.

Lemma iteration_covers_suite_witness :
  exists m s',
    run_iteration fading_env fading_cfg (INITIAL_PROMPT fading_cfg)
                  fading_suite 1 (ticks 2 (init_store fading_cfg))
    = (Ok m, s')
    /\ map query (evaluations m)
       = [lit "What time is it?"; lit "Tell me a joke"]
    /\ calls s' = 6%nat.
Proof.
  destruct (run_iteration fading_env fading_cfg (INITIAL_PROMPT fading_cfg)
              fading_suite 1 (ticks 2 (init_store fading_cfg)))
    as [[m | e] s'] eqn:H; [ | vm_compute in H; discriminate H].
  destruct (iteration_covers_suite _ _ _ _ _ _ _ _ H) as (Hq & _ & _ & _ & Hc).
  exists m, s'. split; [reflexivity |].
  split; [rewrite Hq; reflexivity | rewrite Hc; reflexivity].
Defined.

(** ** The loop, case by case *)

Section LoopCases.

Variable env : Env.
Variable cfg : Config.

(** Proofs about the loop, by the cases of a pass: the iteration raises;
    the pass breaks; the stopping rule raises; the pass goes on. *)
Lemma for_iterations_cases (suite : list TestCase)
    (R : list Z -> str -> Store -> Result Exit * Store -> Prop) :
  (forall p s, R [] p s (Ok BudgetExhausted, s)) ->
  (forall it rest p s e s1,
     run_iteration env cfg p suite it s = (Raise e, s1) ->
     R (it :: rest) p s (Raise e, s1)) ->
  (forall it rest p s m s1 why s2,
     run_iteration env cfg p suite it s = (Ok m, s1) ->
     decide env cfg m it p (after_tracking p m s1) = (Ok (Break why), s2) ->
     R (it :: rest) p s (Ok why, s2)) ->
  (forall it rest p s m s1 e s2,
     run_iteration env cfg p suite it s = (Ok m, s1) ->
     decide env cfg m it p (after_tracking p m s1) = (Raise e, s2) ->
     R (it :: rest) p s (Raise e, s2)) ->
  (forall it rest p s m s1 next s2 out,
     run_iteration env cfg p suite it s = (Ok m, s1) ->
     decide env cfg m it p (after_tracking p m s1) = (Ok (Next next), s2) ->
     R rest next s2 out ->
     for_iterations env cfg suite rest next s2 = out ->
     R (it :: rest) p s out) ->
  forall its p s, R its p s (for_iterations env cfg suite its p s).
Proof.
  intros Hnil Hraise Hbreak Hstop Hnext.
  induction its as [| it rest IH]; intros p s; [apply Hnil |].
  rewrite for_iterations_cons.
  destruct (run_iteration env cfg p suite it s) as [[m | e] s1] eqn:Hrun;
    [ | eapply Hraise; exact Hrun].
  destruct (decide env cfg m it p (after_tracking p m s1))
    as [[[why | next] | e] s2] eqn:Hdec.
  - eapply Hbreak; eassumption.
  - eapply Hnext; try eassumption; [apply IH | reflexivity].
  - eapply Hstop; eassumption.
Qed.

(** What a decision tells about the stopping rule, and where it leaves
    the store. *)
Lemma decide_facts m it p s r s' :
  decide env cfg m it p s = (r, s') ->
  same_self s s'
  /\ (forall why, r = Ok (Break why) ->
        s' = s /\ check_stopping cfg m it s = (Ok (Some why), s))
  /\ (forall next, r = Ok (Next next) ->
        check_stopping cfg m it s = (Ok None, s)
        /\ next_prompt env cfg m it p s = (Ok next, s')).
Proof.
  intro H. split.
  - pose proof (quiet_decide env cfg m it p s) as Hq. rewrite H in Hq.
    exact Hq.
  - unfold decide, bind at 1 in H.
    rewrite check_stopping_run in H. rewrite check_stopping_run.
    destruct (if fge (overall m) (TARGET_ACCURACY cfg) then _ else _)
      as [[why' |] | e].
    + unfold ret in H. inversion H; subst. split.
      * intros why Hw. inversion Hw; subst. split; reflexivity.
      * intros next Hn. discriminate Hn.
    + unfold bind in H.
      destruct (next_prompt env cfg m it p s) as [[n | e] s1];
        unfold ret in H; inversion H; subst; split;
        intros x Hx; try discriminate Hx.
      inversion Hx; subst. split; reflexivity.
    + inversion H; subst. split; intros x Hx; discriminate Hx.
Qed.

(** The store after a pass whose iteration returned [m]. *)
Lemma pass_store p suite it s m s1 r s2 :
  run_iteration env cfg p suite it s = (Ok m, s1) ->
  decide env cfg m it p (after_tracking p m s1) = (r, s2) ->
  metrics_history s2 = metrics_history s ++ [m]
  /\ best_score s2
     = (if fgt (overall m) (best_score s) then overall m else best_score s)
  /\ best_prompt s2
     = (if fgt (overall m) (best_score s) then p else best_prompt s)
  /\ calls s1 = (2 * List.length suite + calls s)%nat.
Proof.
  intros Hrun Hdec.
  pose proof (quiet_run_iteration env cfg p suite it s) as Hq.
  rewrite Hrun in Hq. destruct Hq as (Hh & Hp & Hb). simpl in Hh, Hp, Hb.
  destruct (decide_facts _ _ _ _ _ _ Hdec) as ((Kh & Kp & Kb) & _).
  rewrite Kh, Kp, Kb. simpl. rewrite Hh, Hp, Hb.
  repeat split.
  apply run_iteration_shape in Hrun. apply Hrun.
Qed.

End LoopCases.

(** ** More on the order of floats *)

Lemma SFltb_irrefl x : SFltb x x = false.
Proof.
  unfold SFltb. destruct x as [s | s | | s m e]; simpl;
    try destruct s; try reflexivity;
    rewrite Z.compare_refl, Pos.compare_cont_refl; reflexivity.
Qed.

Lemma SFleb_SFltb_trans x y z :
  SFleb x y = true -> SFltb y z = true -> SFltb x z = true.
Proof.
  unfold SFleb, SFltb.
  destruct x as [sx | sx | | sx mx ex], y as [sy | sy | | sy my ey],
           z as [sz | sz | | sz mz ez];
    simpl; try congruence;
    repeat match goal with s : bool |- _ => destruct s end;
    simpl; try congruence;
    compare_mantissas ex ey ez mx my mz.
Qed.

Lemma SFcompare_total x y :
  SFleb x x = true -> SFleb y y = true -> SFltb y x = false ->
  SFleb x y = true.
Proof.
  unfold SFleb, SFltb.
  destruct x as [sx | sx | | sx mx ex], y as [sy | sy | | sy my ey];
    simpl; try congruence;
    repeat match goal with s : bool |- _ => destruct s end;
    simpl; try congruence; intros _ _;
    rewrite ?Pos.compare_cont_spec; simpl;
    destruct (Z.compare_spec ex ey), (Z.compare_spec ey ex);
    try congruence; try lia; subst;
    destruct (Pos.compare_spec mx my), (Pos.compare_spec my mx);
    simpl; try congruence; try lia.
Qed.

Lemma SFleb_left_ordered x y : SFleb x y = true -> SFleb y y = true.
Proof.
  unfold SFleb.
  destruct x as [sx | sx | | sx mx ex], y as [sy | sy | | sy my ey];
    simpl; try congruence;
    repeat match goal with s : bool |- _ => destruct s end;
    simpl; try congruence; intros _;
    rewrite Z.compare_refl, Pos.compare_cont_refl; reflexivity.
Qed.

Lemma fgt_irrefl x : fgt x x = false.
Proof. unfold fgt. rewrite ltb_spec. apply SFltb_irrefl. Qed.

(** No score above [b] is above a score that [b] is at most. *)
Lemma not_fgt_leb x b b' :
  fgt x b = false -> PrimFloat.leb b b' = true -> fgt x b' = false.
Proof.
  unfold fgt. rewrite !ltb_spec, leb_spec. intros Hx Hb.
  destruct (SFltb (Prim2SF b') (Prim2SF x)) eqn:E; [ | reflexivity].
  rewrite (SFleb_SFltb_trans _ _ _ Hb E) in Hx. discriminate Hx.
Qed.

(** A score that is a number and not above [b] is at most [b]. *)
Lemma not_fgt_is_leb x b :
  ordered x -> ordered b -> fgt x b = false -> PrimFloat.leb x b = true.
Proof.
  unfold ordered, fgt. rewrite !leb_spec, ltb_spec. apply SFcompare_total.
Qed.

Lemma fge_ordered x t : fge x t = true -> ordered x.
Proof.
  unfold fge, ordered. rewrite !leb_spec. apply SFleb_left_ordered.
Qed.

(** ** The best score of a run *)

Lemma best_after_max h : forall b,
  ordered b ->
  Forall (fun m => fgt (overall m) (best_after b h) = false) h.
Proof.
  induction h as [| m h IH]; intros b Hb; [constructor |].
  rewrite best_after_cons.
  set (b1 := if fgt (overall m) b then overall m else b).
  assert (Hb1 : ordered b1).
  { unfold b1. destruct (fgt (overall m) b) eqn:E;
      [eapply fgt_ordered; exact E | exact Hb]. }
  assert (Hm : fgt (overall m) b1 = false).
  { unfold b1. destruct (fgt (overall m) b) eqn:E;
      [apply fgt_irrefl | exact E]. }
  constructor; [ | apply IH; exact Hb1].
  eapply not_fgt_leb; [exact Hm |]. apply best_after_grows. exact Hb1.
Qed.

Section BestOfRun.

Variable env : Env.
Variable cfg : Config.

(** The best score and prompt at the end of the loop are those at its
    start, or the score of a recorded iteration. *)
Lemma for_iterations_attained suite its p s :
  let out := for_iterations env cfg suite its p s in
  (forall m, In m (metrics_history s) -> In m (metrics_history (snd out)))
  /\ ((best_score (snd out) = best_score s
       /\ best_prompt (snd out) = best_prompt s)
      \/ exists m, In m (metrics_history (snd out))
                   /\ overall m = best_score (snd out)
                   /\ fgt (overall m) (best_score s) = true).
Proof.
  cbn zeta.
  apply (for_iterations_cases env cfg suite
           (fun its p s out =>
              (forall m, In m (metrics_history s) ->
                         In m (metrics_history (snd out)))
              /\ ((best_score (snd out) = best_score s
                   /\ best_prompt (snd out) = best_prompt s)
                  \/ exists m, In m (metrics_history (snd out))
                               /\ overall m = best_score (snd out)
                               /\ fgt (overall m) (best_score s) = true))).
  - intros p0 s0. split; [auto | left; split; reflexivity].
  - intros it rest p0 s0 e s1 Hrun.
    pose proof (quiet_run_iteration env cfg p0 suite it s0) as Hq.
    rewrite Hrun in Hq. destruct Hq as (Hh & Hp & Hb). simpl in *.
    rewrite Hh. split; [auto | left; split; assumption].
  - intros it rest p0 s0 m s1 why s2 Hrun Hdec.
    destruct (pass_store env cfg _ _ _ _ _ _ _ _ Hrun Hdec)
      as (Hh & Hb & Hp & _). simpl. rewrite Hh, Hb, Hp.
    split; [intros x Hx; apply in_or_app; left; exact Hx |].
    destruct (fgt (overall m) (best_score s0)) eqn:E;
      [right | left; split; reflexivity].
    exists m. split; [apply in_or_app; right; left; reflexivity |].
    split; [reflexivity | exact E].
  - intros it rest p0 s0 m s1 e s2 Hrun Hdec.
    destruct (pass_store env cfg _ _ _ _ _ _ _ _ Hrun Hdec)
      as (Hh & Hb & Hp & _). simpl. rewrite Hh, Hb, Hp.
    split; [intros x Hx; apply in_or_app; left; exact Hx |].
    destruct (fgt (overall m) (best_score s0)) eqn:E;
      [right | left; split; reflexivity].
    exists m. split; [apply in_or_app; right; left; reflexivity |].
    split; [reflexivity | exact E].
  - intros it rest p0 s0 m s1 next s2 out Hrun Hdec [IHin IH] _.
    destruct (pass_store env cfg _ _ _ _ _ _ _ _ Hrun Hdec)
      as (Hh & Hb & Hp & _).
    split.
    { intros x Hx. apply IHin. rewrite Hh. apply in_or_app. left. exact Hx. }
    destruct (fgt (overall m) (best_score s0)) eqn:E.
    + right. destruct IH as [[Ib Ip] | (m' & Hin & Ho & Hg)].
      * exists m. split; [apply IHin; rewrite Hh; apply in_or_app; right;
                          left; reflexivity |].
        split; [congruence | exact E].
      * exists m'. split; [exact Hin |]. split; [exact Ho |].
        rewrite Hb in Hg. unfold fgt in *.
        rewrite ltb_spec in *.
        eapply SFleb_SFltb_trans; [ | exact Hg].
        apply SFltb_SFleb. exact E.
    + rewrite Hb, Hp in IH. exact IH.
Qed.

End BestOfRun.

(** X8: at the end of a run of a fresh optimizer no recorded overall score
    is greater than the best score; and the best score is the overall
    score, greater than 0, of a recorded iteration, unless no iteration
    scored above 0, in which case it is still 0.0 with the initial prompt
    as best prompt. *)
Theorem best_score_is_maximum (env : Env) (cfg : Config)
    (r : Result Exit) (s' : Store) :
  optimization_loop env cfg (init_store cfg) = (r, s') ->
  Forall (fun m => fgt (overall m) (best_score s') = false)
         (metrics_history s')
  /\ ((best_score s' = 0%float /\ best_prompt s' = INITIAL_PROMPT cfg)
      \/ exists m, In m (metrics_history s')
                   /\ overall m = best_score s'
                   /\ fgt (overall m) 0 = true).
Proof.
  intro Hrun. split.
  - destruct (optimization_loop_spec env cfg) as (suite & _ & _ & _ & Hb & _).
    rewrite Hrun in Hb. simpl in Hb. rewrite Hb.
    apply best_after_max. apply ordered_zero.
  - rewrite optimization_loop_run in Hrun.
    pose proof (for_iterations_attained env cfg
                  (suite_of (seeds_with_extras env (VARIATIONS_PER_QUERY cfg)
                               (calls (init_store cfg)) (TEST_QUERIES cfg)))
                  (py_range 1 (MAX_ITERATIONS cfg + 1)) (INITIAL_PROMPT cfg)
                  (ticks (List.length (TEST_QUERIES cfg)) (init_store cfg)))
      as [_ H].
    rewrite Hrun in H. exact H.
Qed.

(** The fading run: scores 0.7 then 0.2, best score 0.7. *)
Lemma best_score_is_maximum_witness :
  let out := optimization_loop fading_env fading_cfg (init_store fading_cfg) in
  Forall (fun m => fgt (overall m) 0.7 = false) (metrics_history (snd out))
  /\ exists m, In m (metrics_history (snd out)) /\ overall m = 0.7%float.
Proof.
  cbn zeta.
  destruct (best_score_is_maximum fading_env fading_cfg _ _
              (surjective_pairing _)) as [Hmax Hatt].
  split.
  - exact Hmax.
  - destruct Hatt as [[H0 _] | (m & Hin & Ho & _)];
      [vm_compute in H0; discriminate H0 |].
    exists m. split; [exact Hin | exact Ho].
Defined.

(** ** Why a run ended *)

Section Exits.

Variable env : Env.
Variable cfg : Config.

Lemma check_stopping_some m it s why :
  check_stopping cfg m it s = (Ok (Some why), s) ->
  forall hs, metrics_history s = hs ++ [m] ->
  exit_postcondition cfg why (metrics_history s).
Proof.
  rewrite check_stopping_run. intros H hs Hh.
  destruct (fge (overall m) (TARGET_ACCURACY cfg)) eqn:Et.
  - inversion H; subst. exists hs, m. split; [exact Hh | exact Et].
  - destruct (1 <? it); [ | discriminate H].
    rewrite Hh, rev_app_distr in H. cbn [rev app nth_error] in H.
    destruct (rev hs) as [| previous t] eqn:Er; [discriminate H |].
    cbn [nth_error] in H.
    destruct (flt _ _) eqn:El; inversion H; subst.
    exists (rev t), previous, m. split; [ | split; assumption].
    rewrite Hh. rewrite <- (rev_involutive hs), Er. cbn [rev].
    rewrite <- app_assoc. reflexivity.
Qed.

Lemma check_stopping_none m it s :
  check_stopping cfg m it s = (Ok None, s) ->
  fge (overall m) (TARGET_ACCURACY cfg) = false.
Proof.
  rewrite check_stopping_run.
  destruct (fge (overall m) (TARGET_ACCURACY cfg)); [ | reflexivity].
  intro H. discriminate H.
Qed.

Lemma for_iterations_exit suite its p s :
  let out := for_iterations env cfg suite its p s in
  (forall why, fst out = Ok why -> why <> BudgetExhausted ->
     exit_postcondition cfg why (metrics_history (snd out)))
  /\ exists new,
       metrics_history (snd out) = metrics_history s ++ new
       /\ (fst out = Ok BudgetExhausted ->
           Forall (fun m => fge (overall m) (TARGET_ACCURACY cfg) = false)
                  new).
Proof.
  cbn zeta.
  apply (for_iterations_cases env cfg suite
           (fun its p s out =>
              (forall why, fst out = Ok why -> why <> BudgetExhausted ->
                 exit_postcondition cfg why (metrics_history (snd out)))
              /\ exists new,
                   metrics_history (snd out) = metrics_history s ++ new
                   /\ (fst out = Ok BudgetExhausted ->
                       Forall (fun m => fge (overall m) (TARGET_ACCURACY cfg)
                                        = false) new))).
  - intros p0 s0. split.
    + intros why H Hne. inversion H; subst. contradiction.
    + exists []. rewrite app_nil_r. split; [reflexivity | constructor].
  - intros it rest p0 s0 e s1 Hrun. split.
    + intros why H. discriminate H.
    + pose proof (quiet_run_iteration env cfg p0 suite it s0) as Hq.
      rewrite Hrun in Hq. destruct Hq as (Hh & _). simpl in *.
      exists []. rewrite app_nil_r. split; [exact Hh |].
      intro H. discriminate H.
  - intros it rest p0 s0 m s1 why s2 Hrun Hdec.
    destruct (pass_store env cfg _ _ _ _ _ _ _ _ Hrun Hdec) as (Hh & _).
    destruct (decide_facts env cfg _ _ _ _ _ _ Hdec) as (_ & Hbreak & _).
    destruct (Hbreak why eq_refl) as [-> Hc]. simpl. split.
    + intros w H _. inversion H; subst.
      exact (check_stopping_some m it (after_tracking p0 m s1) w Hc
               (metrics_history s0) Hh).
    + exists [m]. split; [exact Hh |]. intro H. inversion H; subst.
      apply decide_exit in Hdec. contradiction.
  - intros it rest p0 s0 m s1 e s2 Hrun Hdec.
    destruct (pass_store env cfg _ _ _ _ _ _ _ _ Hrun Hdec) as (Hh & _).
    simpl. split; [intros w H; discriminate H |].
    exists [m]. split; [exact Hh | intro H; discriminate H].
  - intros it rest p0 s0 m s1 next s2 out Hrun Hdec [IHe (new & Hn & Hb)] _.
    destruct (pass_store env cfg _ _ _ _ _ _ _ _ Hrun Hdec) as (Hh & _).
    destruct (decide_facts env cfg _ _ _ _ _ _ Hdec) as (_ & _ & Hnext).
    destruct (Hnext next eq_refl) as [Hc _].
    split; [exact IHe |].
    exists (m :: new). rewrite Hn, Hh, <- app_assoc.
    split; [reflexivity |]. intro H. constructor; [ | apply Hb; exact H].
    eapply check_stopping_none. exact Hc.
Qed.

End Exits.

(** X9: how a run of a fresh optimizer ended tells what its history holds.
    Target reached: the last iteration scored at least the target, and so
    does the best score returned.  Plateau: there are at least two
    iterations, the last one missed the target and improved on the one
    before by strictly less than [MIN_IMPROVEMENT].  Budget exhausted:
    [MAX_ITERATIONS] iterations were run and every one missed the target. *)
Theorem exit_explains_history (env : Env) (cfg : Config) (why : Exit)
    (s' : Store) :
  optimization_loop env cfg (init_store cfg) = (Ok why, s') ->
  match why with
  | TargetReached =>
      (exists h m,
         metrics_history s' = h ++ [m]
         /\ fge (overall m) (TARGET_ACCURACY cfg) = true)
      /\ fge (best_score s') (TARGET_ACCURACY cfg) = true
  | Plateau =>
      exists h previous m,
        metrics_history s' = h ++ [previous; m]
        /\ fge (overall m) (TARGET_ACCURACY cfg) = false
        /\ flt (overall m - overall previous)%float (MIN_IMPROVEMENT cfg)
           = true
  | BudgetExhausted =>
      List.length (metrics_history s') = Z.to_nat (MAX_ITERATIONS cfg)
      /\ Forall (fun m => fge (overall m) (TARGET_ACCURACY cfg) = false)
                (metrics_history s')
  end.
Proof.
  intro Hrun.
  destruct (optimization_loop_spec env cfg) as (suite & _ & _ & _ & Hb & Hl).
  rewrite Hrun in Hb, Hl. simpl in Hb, Hl.
  pose proof Hrun as Hrun'. rewrite optimization_loop_run in Hrun'.
  pose proof (for_iterations_exit env cfg
                (suite_of (seeds_with_extras env (VARIATIONS_PER_QUERY cfg)
                             (calls (init_store cfg)) (TEST_QUERIES cfg)))
                (py_range 1 (MAX_ITERATIONS cfg + 1)) (INITIAL_PROMPT cfg)
                (ticks (List.length (TEST_QUERIES cfg)) (init_store cfg)))
    as [He (new & Hn & Hmiss)].
  rewrite Hrun' in He, Hn, Hmiss. simpl in He, Hn, Hmiss.
  destruct why.
  - destruct (He TargetReached eq_refl ltac:(discriminate))
      as (h & m & Hh & Ht).
    split; [exists h, m; split; assumption |].
    assert (Hmax : fgt (overall m) (best_score s') = false).
    { pose proof (best_after_max (metrics_history s') 0%float ordered_zero)
        as Hall.
      rewrite <- Hb in Hall. rewrite Forall_forall in Hall. apply Hall.
      rewrite Hh. apply in_or_app. right. left. reflexivity. }
    unfold fge in *. eapply leb_trans; [exact Ht |].
    apply not_fgt_is_leb; [eapply fge_ordered; exact Ht | | exact Hmax].
    rewrite Hb. apply best_after_grows. apply ordered_zero.
  - exact (He Plateau eq_refl ltac:(discriminate)).
  - split; [apply Hl; reflexivity |].
    rewrite Hn. simpl. apply Hmiss. reflexivity.
Qed.

(** The plateau run: its third score, 0.705, is below the target 0.9 and
    improves on 0.70 by less than 0.02. *)
Lemma exit_explains_history_witness :
  exists h previous m,
    metrics_history
      (snd (optimization_loop scripted_env plateau_cfg
              (init_store plateau_cfg)))
    = h ++ [previous; m]
    /\ flt (overall m - overall previous)%float 0.02 = true.
Proof.
  destruct (optimization_loop scripted_env plateau_cfg (init_store plateau_cfg))
    as [[why | e] s'] eqn:H; [ | vm_compute in H; discriminate H].
  pose proof (exit_explains_history scripted_env plateau_cfg why s' H) as He.
  assert (Hw : why = Plateau) by (vm_compute in H; congruence).
  subst why. destruct He as (h & previous & m & Hh & _ & Hlt).
  exists h, previous, m. split; [exact Hh | exact Hlt].
Defined.

(** ** Runs without an iteration *)

(** X10: with [MAX_ITERATIONS] zero or negative the range of the loop is
    empty: the suite is still built, at the cost of one remote call per
    seed, no iteration runs, and [optimize] returns the initial prompt, the
    score 0.0 and an empty history. *)
Theorem no_budget_no_iteration (env : Env) (cfg : Config) :
  MAX_ITERATIONS cfg <= 0 ->
  optimize env cfg (init_store cfg)
  = (Ok (INITIAL_PROMPT cfg, 0%float, []),
     ticks (List.length (TEST_QUERIES cfg)) (init_store cfg)).
Proof.
  intro Hmax. unfold optimize, bind at 1. rewrite optimization_loop_run.
  unfold py_range.
  replace (Z.to_nat (MAX_ITERATIONS cfg + 1 - 1)) with 0%nat by lia.
  reflexivity.
Qed.

Lemma no_budget_no_iteration_witness :
  optimize scripted_env
    {| PRIMARY_MODEL := CLAUDE;
       MAX_ITERATIONS := 0;
       TARGET_ACCURACY := 0.9;
       MIN_IMPROVEMENT := 0.02;
       VARIATIONS_PER_QUERY := 2;
       FUNCTION_WEIGHT := 0.7;
       PARAMETER_WEIGHT := 0.3;
       USE_PERPLEXITY := false;
       TEST_QUERIES := TEST_QUERIES small_cfg;
       INITIAL_PROMPT := INITIAL_PROMPT small_cfg |}
    (init_store small_cfg)
  = (Ok (INITIAL_PROMPT small_cfg, 0%float, []),
     ticks 2 (init_store small_cfg)).
Proof.
  apply (no_budget_no_iteration scripted_env
           {| PRIMARY_MODEL := CLAUDE;
              MAX_ITERATIONS := 0;
              TARGET_ACCURACY := 0.9;
              MIN_IMPROVEMENT := 0.02;
              VARIATIONS_PER_QUERY := 2;
              FUNCTION_WEIGHT := 0.7;
              PARAMETER_WEIGHT := 0.3;
              USE_PERPLEXITY := false;
              TEST_QUERIES := TEST_QUERIES small_cfg;
              INITIAL_PROMPT := INITIAL_PROMPT small_cfg |}).
  simpl. lia.
Defined.

(** ** Where the best prompt comes from *)

Section Provenance.

Variable env : Env.
Variable cfg : Config.

Lemma held_next m it p s next s' :
  held_prompt env cfg p ->
  next_prompt env cfg m it p s = (Ok next, s') ->
  held_prompt env cfg next.
Proof.
  intros Hp H.
  destruct (next_prompt_run env cfg m it p s) as (n & s1 & Hn & Hor).
  rewrite Hn in H. inversion H; subst.
  destruct Hor as [-> | (k & i & text & Hc & ->)]; [exact Hp |].
  right. exists k, p, m, i, text. split; [exact Hc | reflexivity].
Qed.

Lemma for_iterations_held suite its p s :
  held_prompt env cfg p ->
  held_prompt env cfg (best_prompt s) ->
  held_prompt env cfg
    (best_prompt (snd (for_iterations env cfg suite its p s))).
Proof.
  apply (for_iterations_cases env cfg suite
           (fun its p s out =>
              held_prompt env cfg p ->
              held_prompt env cfg (best_prompt s) ->
              held_prompt env cfg (best_prompt (snd out)))).
  - intros p0 s0 _ Hb. exact Hb.
  - intros it rest p0 s0 e s1 Hrun _ Hb.
    pose proof (quiet_run_iteration env cfg p0 suite it s0) as Hq.
    rewrite Hrun in Hq. destruct Hq as (_ & Hp & _). simpl in *.
    rewrite Hp. exact Hb.
  - intros it rest p0 s0 m s1 why s2 Hrun Hdec Hp Hb.
    destruct (pass_store env cfg _ _ _ _ _ _ _ _ Hrun Hdec) as (_ & _ & Hbp & _).
    simpl. rewrite Hbp. destruct (fgt _ _); assumption.
  - intros it rest p0 s0 m s1 e s2 Hrun Hdec Hp Hb.
    destruct (pass_store env cfg _ _ _ _ _ _ _ _ Hrun Hdec) as (_ & _ & Hbp & _).
    simpl. rewrite Hbp. destruct (fgt _ _); assumption.
  - intros it rest p0 s0 m s1 next s2 out Hrun Hdec IH _ Hp Hb.
    destruct (pass_store env cfg _ _ _ _ _ _ _ _ Hrun Hdec) as (_ & _ & Hbp & _).
    destruct (decide_facts env cfg _ _ _ _ _ _ Hdec) as (_ & _ & Hnext).
    destruct (Hnext next eq_refl) as [_ Hn].
    apply IH.
    + eapply held_next; [exact Hp | exact Hn].
    + rewrite Hbp. destruct (fgt _ _); assumption.
Qed.

End Provenance.

(** X11: the best prompt of a run of a fresh optimizer is the initial
    prompt or the trimmed text of a reply the gateway gave to a rewrite
    request; if every rewrite request fails, it is the initial prompt. *)
Theorem best_prompt_provenance (env : Env) (cfg : Config) :
  let s' := snd (optimization_loop env cfg (init_store cfg)) in
  (best_prompt s' = INITIAL_PROMPT cfg
   \/ exists n q m i text,
        chat_completion env n (rewrite_messages cfg q m i) = Some text
        /\ best_prompt s' = strip text)
  /\ ((forall n q m i,
         chat_completion env n (rewrite_messages cfg q m i) = None) ->
      best_prompt s' = INITIAL_PROMPT cfg).
Proof.
  cbn zeta.
  assert (H : held_prompt env cfg
                (best_prompt (snd (optimization_loop env cfg
                                     (init_store cfg))))).
  { rewrite optimization_loop_run.
    apply for_iterations_held; left; reflexivity. }
  split; [exact H |].
  intro Hfail. destruct H as [H | (n & q & m & i & text & Hc & _)];
    [exact H |].
  rewrite Hfail in Hc. discriminate Hc.
Qed.

(** With the services down nothing is rewritten; in the plateau run the
    best prompt is the reply to the second rewrite, trimmed. *)
Lemma best_prompt_provenance_witness :
  best_prompt (snd (optimization_loop silent_env small_cfg
                      (init_store small_cfg)))
  = INITIAL_PROMPT small_cfg
  /\ best_prompt (snd (optimization_loop scripted_env plateau_cfg
                         (init_store plateau_cfg)))
     = plateau_third_prompt.
Proof.
  split.
  - apply (proj2 (best_prompt_provenance silent_env small_cfg)).
    reflexivity.
  - vm_compute. reflexivity.
Defined.

(** ** The research service *)

Section Research.

Variable env : Env.
Variable cfg : Config.
Variable r' : nat -> float -> float -> option str.

Lemma run_iteration_research p suite it :
  run_iteration (with_research env r') cfg p suite it
  = run_iteration env cfg p suite it.
Proof. reflexivity. Qed.

Lemma generate_test_suite_research queries :
  generate_test_suite (with_research env r') cfg queries
  = generate_test_suite env cfg queries.
Proof. reflexivity. Qed.

(** A decision looks at the research service only in iteration 1, only
    when research is enabled, and only at the current call. *)
Lemma decide_research m it p s :
  USE_PERPLEXITY cfg && (it =? 1) = false
  \/ (forall fa ov, r' (calls s) fa ov = research env (calls s) fa ov) ->
  decide (with_research env r') cfg m it p s = decide env cfg m it p s.
Proof.
  intro H. unfold decide, bind at 1. unfold bind at 2.
  rewrite check_stopping_run.
  destruct (if fge (overall m) (TARGET_ACCURACY cfg) then _ else _)
    as [[why |] | e]; try reflexivity.
  unfold next_prompt. destruct (it <? MAX_ITERATIONS cfg); [ | reflexivity].
  destruct (USE_PERPLEXITY cfg && (it =? 1)) eqn:E; [ | reflexivity].
  destruct H as [H | H]; [discriminate H |].
  unfold research_optimization_strategies.
  destruct (negb (USE_PERPLEXITY cfg)); [reflexivity |].
  unfold bind, remote. cbn [research with_research]. rewrite H. reflexivity.
Qed.

Lemma for_iterations_research_rest suite its : forall p s,
  USE_PERPLEXITY cfg = false \/ ~ In 1 its ->
  for_iterations (with_research env r') cfg suite its p s
  = for_iterations env cfg suite its p s.
Proof.
  induction its as [| it rest IH]; intros p s H; [reflexivity |].
  rewrite !for_iterations_cons, run_iteration_research.
  destruct (run_iteration env cfg p suite it s) as [[m | e] s1];
    [ | reflexivity].
  rewrite decide_research.
  - destruct (decide env cfg m it p (after_tracking p m s1))
      as [[[why | next] | e] s2]; try reflexivity.
    apply IH. destruct H as [H | H]; [left; exact H |].
    right. intro Hin. apply H. right. exact Hin.
  - left. destruct H as [-> | H]; [reflexivity |].
    destruct (it =? 1) eqn:E; [ | apply andb_false_r].
    apply Z.eqb_eq in E. subst it. exfalso. apply H. left. reflexivity.
Qed.

Lemma seeds_with_extras_research k queries : forall n,
  seeds_with_extras (with_research env r') k n queries
  = seeds_with_extras env k n queries.
Proof.
  induction queries as [| q rest IH]; intro n; [reflexivity |].
  simpl. rewrite IH. reflexivity.
Qed.

Lemma later_iterations len : ~ In 1 (map (fun k => 1 + Z.of_nat k) (seq 1 len)).
Proof.
  intro H. apply in_map_iff in H. destruct H as (k & Hk & Hin).
  apply in_seq in Hin. lia.
Qed.

End Research.

(** X12: a run of a fresh optimizer consults the research service at most
    once, at the remote call that follows the first iteration (the calls
    that build the suite, then two per test case), and not at all when
    research is disabled: replacing the service by one that agrees with it
    at that call, or by any service when research is disabled, changes
    nothing in what [optimize] returns or leaves in the store. *)
Theorem research_asked_once (env : Env) (cfg : Config)
    (r' : nat -> float -> float -> option str) :
  let suite :=
    suite_of (seeds_with_extras env (VARIATIONS_PER_QUERY cfg) 0
                                (TEST_QUERIES cfg)) in
  let k := (2 * List.length suite + List.length (TEST_QUERIES cfg))%nat in
  USE_PERPLEXITY cfg = false
  \/ (forall fa ov, r' k fa ov = research env k fa ov) ->
  optimize (with_research env r') cfg (init_store cfg)
  = optimize env cfg (init_store cfg).
Proof.
  cbn zeta. intro H.
  assert (Hloop : optimization_loop (with_research env r') cfg (init_store cfg)
                  = optimization_loop env cfg (init_store cfg)).
  { rewrite !optimization_loop_run.
    rewrite seeds_with_extras_research.
    set (suite := suite_of _) in *.
    set (s0 := ticks (List.length (TEST_QUERIES cfg)) (init_store cfg)).
    unfold py_range.
    replace (MAX_ITERATIONS cfg + 1 - 1) with (MAX_ITERATIONS cfg) by lia.
    destruct (Z.to_nat (MAX_ITERATIONS cfg)) as [| len]; [reflexivity |].
    cbn [seq map]. rewrite !for_iterations_cons, run_iteration_research.
    destruct (run_iteration env cfg (INITIAL_PROMPT cfg) suite
                (1 + Z.of_nat 0) s0) as [[m | e] s1] eqn:Hrun;
      [ | reflexivity].
    apply run_iteration_shape in Hrun.
    destruct Hrun as (_ & _ & _ & _ & Hcalls).
    rewrite decide_research.
    - destruct (decide env cfg m (1 + Z.of_nat 0) (INITIAL_PROMPT cfg)
                  (after_tracking (INITIAL_PROMPT cfg) m s1))
        as [[[why | next] | e] s2]; try reflexivity.
      apply for_iterations_research_rest. right. apply later_iterations.
    - destruct H as [-> | H]; [left; reflexivity | right].
      cbn [calls after_tracking]. rewrite Hcalls.
      unfold s0. cbn [calls ticks init_store].
      rewrite Nat.add_0_r. exact H. }
  unfold optimize, bind at 1. unfold bind at 4. rewrite Hloop. reflexivity.
Qed.

(** The rising run, with research enabled: the service is asked at call
    2 * 2 + 2 = 6, and a service that fails at every other call gives the
    same result. *)
Lemma research_asked_once_witness :
  optimize (with_research rising_env
              (fun n _ _ => if (n =? 6)%nat
                            then Some (lit "Use few-shot examples.")
                            else None))
           rising_cfg (init_store rising_cfg)
  = optimize rising_env rising_cfg (init_store rising_cfg).
Proof.
  apply (research_asked_once rising_env rising_cfg).
  right. intros fa ov. reflexivity.
Defined.

(** ** The variations kept *)

Lemma split_pieces sep s : Forall (fun l => ~ In sep l) (split sep s).
Proof.
  induction s as [| c r IH]; simpl.
  - constructor; [intros [] | constructor].
  - destruct (c =? sep)%N eqn:E.
    + constructor; [intros [] | exact IH].
    + apply N.eqb_neq in E.
      destruct (split sep r) as [| h t]; [repeat constructor; intros [H | []]; congruence |].
      inversion IH; subst. constructor; [ | assumption].
      intros [H | H]; [congruence | contradiction].
Qed.

Lemma strip_keeps c s : In c (strip s) -> In c s.
Proof.
  intro H. destruct (strip_spec s) as (l & r & Hs & _).
  rewrite Hs. apply in_or_app. right. apply in_or_app. left. exact H.
Qed.

Lemma lstrip_trimmed s :
  match s with c :: _ => isspace c = false | [] => True end -> lstrip s = s.
Proof. destruct s as [| c r]; simpl; [reflexivity | intros ->; reflexivity]. Qed.

Lemma strip_trimmed s : strip (strip s) = strip s.
Proof.
  destruct (strip_spec s) as (l & r & _ & _ & _ & Hhead & Hlast).
  unfold strip at 1. rewrite (lstrip_trimmed _ Hhead).
  unfold rstrip. rewrite (lstrip_trimmed _ Hlast). apply rev_involutive.
Qed.

Lemma truthy_nonempty s : truthy s = true -> s <> [].
Proof. destruct s; [discriminate | discriminate]. Qed.

(** A kept line is a piece of the trimmed reply between two line feeds,
    trimmed. *)
Lemma kept_lines_clean content :
  Forall (fun v =>
            (exists line,
               In line (split newline (strip content)) /\ v = strip line)
            /\ clean_line v)
         (kept_lines content).
Proof.
  unfold kept_lines. apply Forall_forall. intros v Hv.
  apply in_map_iff in Hv. destruct Hv as (w & <- & Hw).
  apply filter_In in Hw. destruct Hw as [Hw Ht].
  split; [exists w; split; [exact Hw | reflexivity] |].
  split; [apply truthy_nonempty; exact Ht |].
  split; [apply strip_trimmed |].
  intro Hn. apply strip_keeps in Hn.
  pose proof (split_pieces newline (strip content)) as Hp.
  rewrite Forall_forall in Hp. exact (Hp w Hw Hn).
Qed.

Lemma Forall_firstn' A (P : A -> Prop) n l : Forall P l -> Forall P (firstn n l).
Proof.
  intro H. rewrite <- (firstn_skipn n l) in H.
  apply Forall_app in H. apply H.
Qed.

Lemma in_firstn A (x : A) n l : In x (firstn n l) -> In x l.
Proof.
  intro H. rewrite <- (firstn_skipn n l). apply in_or_app. left. exact H.
Qed.

(** A variation kept for the seed [q] comes from a reply to the request
    for the variations of [q]. *)
Lemma extras_for_clean env k q n :
  Forall (fun v =>
            exists content line,
              chat_completion env n (variations_messages q k) = Some content
              /\ In v (kept_lines content)
              /\ In line (split newline (strip content))
              /\ v = strip line
              /\ clean_line v)
         (extras_for env k q n).
Proof.
  unfold extras_for.
  destruct (chat_completion env n (variations_messages q k)) as [content |];
    [ | constructor].
  apply Forall_forall. intros v Hv.
  assert (Hin : In v (kept_lines content)).
  { unfold slice_to in Hv. destruct (0 <=? k - 1);
      eapply in_firstn; exact Hv. }
  pose proof (kept_lines_clean content) as Hc.
  rewrite Forall_forall in Hc.
  destruct (Hc v Hin) as ((line & Hl & Hs) & Hclean).
  exists content, line. repeat split; try assumption; apply Hclean.
Qed.

Lemma seeds_with_extras_clean env k queries : forall n,
  Forall (fun sv =>
            In (fst sv) queries
            /\ Forall (fun v =>
                         exists i content line,
                           chat_completion env i
                             (variations_messages (fst sv) k) = Some content
                           /\ In v (kept_lines content)
                           /\ In line (split newline (strip content))
                           /\ v = strip line
                           /\ clean_line v)
                      (snd sv))
         (seeds_with_extras env k n queries).
Proof.
  induction queries as [| q rest IH]; intro n; simpl; constructor.
  - split; [left; reflexivity |]. simpl.
    eapply Forall_impl; [ | apply extras_for_clean].
    intros v (content & line & H). exists n, content, line. exact H.
  - eapply Forall_impl; [ | apply IH].
    intros sv [Hin Hc]. split; [right; exact Hin | exact Hc].
Qed.



(** X14: with [VARIATIONS_PER_QUERY = k <= 0] the end of the slice,
    [k - 1], is negative: the suite builder keeps every line of the reply
    but the last [1 - k], so that with k = 0 a seed gets all the lines
    returned but one, more than with k = 1. *)
Theorem nonpositive_variations_drop_last (env : Env) (q : str) (k : Z)
    (s : Store) (reply : str) :
  k <= 0 ->
  chat_completion env (calls s) (variations_messages q k) = Some reply ->
  generate_query_variations env q k s
  = (Ok (q :: firstn (List.length (kept_lines reply) - Z.to_nat (1 - k))
                     (kept_lines reply)),
     tick s).
Proof.
  intros Hk Hc. rewrite generate_query_variations_run.
  unfold extras_for, slice_to. rewrite Hc.
  destruct (0 <=? k - 1) eqn:E; [lia |].
  replace (- (k - 1)) with (1 - k) by lia. reflexivity.
Qed.

Lemma nonpositive_variations_drop_last_witness :
  fst (generate_query_variations scripted_env (lit "What time is it?") 0
         (init_store small_cfg))
  = Ok [lit "What time is it?"; lit "first rewording"; lit "second rewording"]
  /\ fst (generate_query_variations scripted_env (lit "What time is it?") 1
            (init_store small_cfg))
     = Ok [lit "What time is it?"].
Proof.
  split; [ | reflexivity].
  destruct (chat_completion scripted_env (calls (init_store small_cfg))
              (variations_messages (lit "What time is it?") 0))
    as [reply |] eqn:Hc; [ | discriminate Hc].
  rewrite (nonpositive_variations_drop_last scripted_env
             (lit "What time is it?") 0 (init_store small_cfg) reply
             ltac:(lia) Hc).
  inversion Hc; subst reply. reflexivity.
Defined.

(** ** The cost of a full run *)

Section Cost.

Variable env : Env.
Variable cfg : Config.

Lemma next_prompt_calls m it p s r s' :
  next_prompt env cfg m it p s = (r, s') ->
  calls s' = (rewrite_calls cfg it + calls s)%nat.
Proof.
  unfold next_prompt, rewrite_calls.
  destruct (it <? MAX_ITERATIONS cfg);
    [ | unfold ret; intro H; inversion H; reflexivity].
  unfold bind at 1.
  destruct (USE_PERPLEXITY cfg && (it =? 1)) eqn:E.
  - apply andb_true_iff in E. destruct E as [Eu _].
    unfold research_optimization_strategies. rewrite Eu. cbn [negb].
    unfold bind at 1. unfold remote.
    destruct (research env (calls s) (function_acc m) (overall m)) as [t |];
      [destruct (truthy t) | ]; unfold ret;
      rewrite optimize_prompt_run; intro H; inversion H; reflexivity.
  - unfold ret. rewrite optimize_prompt_run. intro H.
    inversion H; reflexivity.
Qed.

Lemma list_sum_cons x l : list_sum (x :: l) = (x + list_sum l)%nat.
Proof. reflexivity. Qed.

Lemma pass_calls_cons suite it rest :
  pass_calls cfg suite (it :: rest)
  = (2 * List.length suite + rewrite_calls cfg it
     + pass_calls cfg suite rest)%nat.
Proof. reflexivity. Qed.

Lemma for_iterations_budget_calls suite its p s :
  let out := for_iterations env cfg suite its p s in
  fst out = Ok BudgetExhausted ->
  calls (snd out) = (pass_calls cfg suite its + calls s)%nat.
Proof.
  cbn zeta.
  apply (for_iterations_cases env cfg suite
           (fun its p s out =>
              fst out = Ok BudgetExhausted ->
              calls (snd out) = (pass_calls cfg suite its + calls s)%nat)).
  - intros p0 s0 _. reflexivity.
  - intros it rest p0 s0 e s1 _ H. discriminate H.
  - intros it rest p0 s0 m s1 why s2 Hrun Hdec H. inversion H; subst.
    apply decide_exit in Hdec. contradiction.
  - intros it rest p0 s0 m s1 e s2 _ _ H. discriminate H.
  - intros it rest p0 s0 m s1 next s2 out Hrun Hdec IH _ H.
    rewrite (IH H).
    destruct (pass_store env cfg _ _ _ _ _ _ _ _ Hrun Hdec) as (_ & _ & _ & Hc).
    destruct (decide_facts env cfg _ _ _ _ _ _ Hdec) as (_ & _ & Hnext).
    destruct (Hnext next eq_refl) as [_ Hn].
    apply next_prompt_calls in Hn. cbn [calls after_tracking] in Hn.
    rewrite pass_calls_cons. lia.
Qed.

(** The calls of the rewriter and of the research over the iterations
    [a + 1 .. a + len] of a budget of [a + len]. *)
Lemma range_rewrite_calls len : forall a,
  MAX_ITERATIONS cfg = Z.of_nat (a + len) ->
  list_sum (map (rewrite_calls cfg)
                (map (fun k => 1 + Z.of_nat k) (seq a len)))
  = ((len - 1)
     + (if USE_PERPLEXITY cfg && (a =? 0)%nat && (2 <=? len)%nat
        then 1 else 0))%nat.
Proof.
  induction len as [| len IH]; intros a Hmax;
    [simpl; rewrite andb_false_r; reflexivity |].
  cbn [seq map]. rewrite list_sum_cons, (IH (S a)) by lia.
  change (S a =? 0)%nat with false. rewrite andb_false_r. cbn [andb].
  unfold rewrite_calls.
  destruct (Z.ltb_spec (1 + Z.of_nat a) (MAX_ITERATIONS cfg)),
           (Z.eqb_spec (1 + Z.of_nat a) 1), (Nat.eqb_spec a 0),
           (Nat.leb_spec 2 (S len)), (USE_PERPLEXITY cfg);
    cbn [andb]; lia.
Qed.

Lemma list_sum_plus A (f g : A -> nat) l :
  list_sum (map (fun x => f x + g x)%nat l)
  = (list_sum (map f l) + list_sum (map g l))%nat.
Proof. induction l as [| x l IH]; simpl; lia. Qed.

Lemma list_sum_const A (c : nat) (l : list A) :
  list_sum (map (fun _ => c) l) = (List.length l * c)%nat.
Proof. induction l as [| x l IH]; simpl; lia. Qed.

End Cost.

(** X15: a run of a fresh optimizer that exhausts a budget of n >= 1
    iterations has made exactly one remote call per seed, two per test
    case in each iteration, one rewrite after each iteration but the last,
    and one research call if research is enabled and n >= 2: nothing is
    rewritten after the last iteration. *)
Theorem full_run_cost (env : Env) (cfg : Config) (n : nat) (s' : Store)
    (suite : list TestCase) :
  MAX_ITERATIONS cfg = Z.of_nat n -> (1 <= n)%nat ->
  fst (generate_test_suite env cfg (TEST_QUERIES cfg) (init_store cfg))
  = Ok suite ->
  optimization_loop env cfg (init_store cfg) = (Ok BudgetExhausted, s') ->
  calls s'
  = (List.length (TEST_QUERIES cfg)
     + n * (2 * List.length suite)
     + (n - 1)
     + (if USE_PERPLEXITY cfg && (2 <=? n)%nat then 1 else 0))%nat.
Proof.
  intros Hmax Hn Hsuite Hrun.
  rewrite generate_test_suite_run in Hsuite. inversion Hsuite; subst suite.
  rewrite optimization_loop_run in Hrun.
  pose proof (for_iterations_budget_calls env cfg
                (suite_of (seeds_with_extras env (VARIATIONS_PER_QUERY cfg)
                             (calls (init_store cfg)) (TEST_QUERIES cfg)))
                (py_range 1 (MAX_ITERATIONS cfg + 1)) (INITIAL_PROMPT cfg)
                (ticks (List.length (TEST_QUERIES cfg)) (init_store cfg)))
    as Hc.
  rewrite Hrun in Hc. specialize (Hc eq_refl). simpl in Hc. rewrite Hc.
  unfold pass_calls, py_range.
  replace (Z.to_nat (MAX_ITERATIONS cfg + 1 - 1)) with n by lia.
  rewrite (list_sum_plus _ (fun _ => _) (rewrite_calls cfg)).
  rewrite list_sum_const, length_map, length_seq.
  rewrite (range_rewrite_calls cfg n 0) by (simpl; exact Hmax).
  rewrite andb_true_r. lia.
Qed.

(** The rising run exhausts its budget of two: 2 calls for the suite, 4
    for each iteration, one research and one rewrite call. *)
Lemma full_run_cost_witness :
  exists s',
    optimization_loop rising_env rising_cfg (init_store rising_cfg)
    = (Ok BudgetExhausted, s')
    /\ map overall (metrics_history s') = [0.2; 0.7]%float
    /\ calls s' = 12%nat.
Proof.
  destruct (optimization_loop rising_env rising_cfg (init_store rising_cfg))
    as [r s'] eqn:H.
  assert (Hr : r = Ok BudgetExhausted) by (vm_compute in H; congruence).
  subst r. exists s'. split; [reflexivity |].
  split; [vm_compute in H; inversion H; reflexivity |].
  rewrite (full_run_cost rising_env rising_cfg 2 s' fading_suite
             eq_refl ltac:(lia) eq_refl H).
  reflexivity.
Defined.

(** ** The history over several runs *)

(** X16: whatever store [optimize] starts from (a fresh optimizer or one
    that has run before) and however its loop ends, a raise included, the
    history it leaves is the history it found followed by the metrics of
    the iterations it completed, at most [MAX_ITERATIONS] of them; and a
    best score that was a number is not lowered. *)
Theorem history_is_append_only (env : Env) (cfg : Config) (s : Store) :
  ordered (best_score s) ->
  let out := optimization_loop env cfg s in
  exists new,
    metrics_history (snd out) = metrics_history s ++ new
    /\ (List.length new <= Z.to_nat (MAX_ITERATIONS cfg))%nat
    /\ best_score (snd out) = best_after (best_score s) new
    /\ PrimFloat.leb (best_score s) (best_score (snd out)) = true.
Proof.
  intro Hb. cbn zeta. rewrite optimization_loop_run.
  destruct (for_iterations_spec env cfg
              (suite_of (seeds_with_extras env (VARIATIONS_PER_QUERY cfg)
                           (calls s) (TEST_QUERIES cfg)))
              (py_range 1 (MAX_ITERATIONS cfg + 1)) (INITIAL_PROMPT cfg)
              (ticks (List.length (TEST_QUERIES cfg)) s))
    as (new & Hh & Hl & Hbest & _).
  rewrite py_range_length in Hl.
  replace (MAX_ITERATIONS cfg + 1 - 1) with (MAX_ITERATIONS cfg) in Hl by lia.
  simpl in Hh, Hbest.
  exists new. split; [exact Hh |]. split; [exact Hl |].
  split; [exact Hbest |].
  rewrite Hbest. apply best_after_grows. exact Hb.
Qed.

(** A second run of the fading optimizer: the two iterations of the first
    run stay in front, and the best score stays 0.7. *)
Lemma history_is_append_only_witness :
  let s1 :=
    snd (optimization_loop fading_env fading_cfg (init_store fading_cfg)) in
  let s2 := snd (optimization_loop fading_env fading_cfg s1) in
  firstn 2 (metrics_history s2) = metrics_history s1
  /\ PrimFloat.leb (best_score s1) (best_score s2) = true.
Proof.
  cbn zeta.
  destruct (history_is_append_only fading_env fading_cfg
              (snd (optimization_loop fading_env fading_cfg
                      (init_store fading_cfg))) ltac:(reflexivity))
    as (new & Hh & _ & _ & Hle).
  split; [ | exact Hle].
  rewrite Hh.
  change 2%nat
    with (List.length
            (metrics_history
               (snd (optimization_loop fading_env fading_cfg
                       (init_store fading_cfg)))) + 0)%nat.
  rewrite firstn_app_2. apply app_nil_r.
Defined.
